(** * Ekko: recording controller, speaker estimator and processing workflow

    A shallow embedding of the parts of the Ekko desktop application that
    carry its lifecycle logic:

    - [AudioRecordingService]   (main process, recording session controller),
    - [TranscriptionService]    (main process, heuristic speaker estimator),
    - [SpeakerIdentification]   (renderer, the naming dialog),
    - [ProcessingWorkflow]      (renderer, the processing pipeline),
    - [FileService]             (main process, deleting a recording),
    - [SettingsService]         (main process, the settings and their file),
    - [RecordingPage]           (renderer, the duration on screen).

    Strings are Rocq byte strings: the model covers transcripts written in
    ASCII, for which [toLowerCase] maps [A-Z] to [a-z] and the regular
    expression class [\s] (and [trim]) is TAB, LF, VT, FF, CR and SPACE.
    Numbers that the source only counts with are [nat]; ratios that the
    source computes in floating point are exact rationals ([Q]): for
    operands below 2^30 (a JavaScript string is shorter than that) the
    comparison of a correctly rounded quotient with the literal 0.15, 0.08
    or 0.6 agrees with the exact one. *)

From Stdlib Require Import ZArith QArith Lia Lqa Bool.
From Stdlib Require Import Strings.String Strings.Ascii.
From Stdlib Require Import Numbers.DecimalString Numbers.DecimalNat.
From Stdlib Require Import Sorting.Sorted.
From stdpp Require Import gmap strings list.

Open Scope string_scope.
Open Scope list_scope.

(* ===================================================================== *)
(** ** The JavaScript runtime primitives used by the services            *)
(* ===================================================================== *)

Module JS.

(** [\s] on ASCII, also the set removed by [String.prototype.trim]. *)
Definition isWhiteSpace (c : ascii) : bool :=
  let n := nat_of_ascii c in
  ((n =? 9) || (n =? 10) || (n =? 11) || (n =? 12) || (n =? 13) || (n =? 32))%nat.

Definition lowerChar (c : ascii) : ascii :=
  let n := nat_of_ascii c in
  if ((65 <=? n) && (n <=? 90))%nat then ascii_of_nat (n + 32) else c.

(** [s.toLowerCase()] *)
Fixpoint toLowerCase (s : string) : string :=
  match s with
  | EmptyString => EmptyString
  | String c r => String (lowerChar c) (toLowerCase r)
  end.

(** [s.split(/[sep]+/)]: the pieces of [s] between the maximal runs of
    separator characters.  A run at the very start leaves an empty first
    piece, a run at the very end an empty last piece, and the empty string
    splits into one empty piece.  The head of the result is the piece that
    the characters read so far belong to. *)
Fixpoint split (sep : ascii -> bool) (s : string) : list string :=
  match s with
  | EmptyString => [EmptyString]
  | String c r =>
      if sep c then
        match r with
        | EmptyString => EmptyString :: split sep r
        | String c' _ =>
            if sep c' then split sep r else EmptyString :: split sep r
        end
      else
        match split sep r with
        | piece :: pieces => String c piece :: pieces
        | [] => [String c EmptyString]
        end
  end.

(** [s.split(ch)] for a one-character string [ch]: every occurrence
    separates. *)
Fixpoint splitChar (ch : ascii) (s : string) : list string :=
  match s with
  | EmptyString => [EmptyString]
  | String c r =>
      if Ascii.eqb c ch then EmptyString :: splitChar ch r
      else
        match splitChar ch r with
        | piece :: pieces => String c piece :: pieces
        | [] => [String c EmptyString]
        end
  end.

Fixpoint trimStart (s : string) : string :=
  match s with
  | EmptyString => EmptyString
  | String c r => if isWhiteSpace c then trimStart r else s
  end.

Fixpoint trimEnd (s : string) : string :=
  match s with
  | EmptyString => EmptyString
  | String c r =>
      match trimEnd r with
      | EmptyString => if isWhiteSpace c then EmptyString else String c EmptyString
      | kept => String c kept
      end
  end.

(** [s.trim()] *)
Definition trim (s : string) : string := trimEnd (trimStart s).

(** [s.replace(/[chars]/g, by)] for a one-character replacement. *)
Fixpoint replaceAll (chars : ascii -> bool) (by_ : ascii) (s : string) : string :=
  match s with
  | EmptyString => EmptyString
  | String c r => String (if chars c then by_ else c) (replaceAll chars by_ r)
  end.

(** [s.slice(0, n)] *)
Fixpoint sliceTo (n : nat) (s : string) : string :=
  match n, s with
  | S k, String c r => String c (sliceTo k r)
  | _, _ => EmptyString
  end.

(** Template interpolation of a non-negative integer. *)
Definition showNat (n : nat) : string := NilEmpty.string_of_uint (Nat.to_uint n).

(** [list.includes(w)] *)
Definition includes (l : list string) (w : string) : bool :=
  existsb (String.eqb w) l.

(** Truthiness of a string: every string but the empty one. *)
Definition truthy (s : string) : bool :=
  match s with EmptyString => false | _ => true end.

(** [x > y] on numbers. *)
Definition gt (x y : Q) : bool := negb (Qle_bool x y).

(** [a / b] on two counts. *)
Definition ratio (a b : nat) : Q := inject_Z (Z.of_nat a) / inject_Z (Z.of_nat b).

(** The settlement of a promise. *)
Inductive Outcome (A : Type) : Type :=
| Resolved (value : A)
| Rejected (message : string).
Arguments Resolved {A} value.
Arguments Rejected {A} message.

End JS.

(* ===================================================================== *)
(** ** shared/types.ts                                                   *)
(* ===================================================================== *)

Record ActionItem := {
  ai_id : string;
  ai_task : string;
  ai_assignee : string;
  ai_dueDate : option string;
  ai_priority : string;
  ai_completed : bool
}.

Record RecordingStatus := {
  rs_isRecording : bool;
  rs_duration : Z;
  rs_audioLevel : Q;
  rs_fileName : option string
}.

Record Speaker := {
  sp_id : string;
  sp_name : string;
  sp_confidence : Q;
  sp_sampleAudio : string
}.

Record TranscriptionResult := {
  tr_transcript : string;
  tr_speakers : list Speaker;
  tr_confidence : Q;
  tr_duration : Z
}.

Record AIAnalysisResult := {
  an_summary : string;
  an_decisions : list string;
  an_actionItems : list ActionItem;
  an_suggestedTitle : string;
  an_keyTopics : list string
}.

(** [Omit<Meeting, 'id' | 'createdAt' | 'updatedAt'>] *)
Record MeetingDraft := {
  md_title : string;
  md_date : string;
  md_duration : Z;
  md_participants : list string;
  md_transcript : string;
  md_summary : string;
  md_decisions : list string;
  md_actionItems : list ActionItem;
  md_audioFilePath : option string;
  md_tags : list string;
  md_notes : string
}.

Record Meeting := {
  mt_id : string;
  mt_createdAt : string;
  mt_updatedAt : string;
  mt_draft : MeetingDraft
}.

(* ===================================================================== *)
(** ** TranscriptionService: the heuristic speaker estimator             *)
(* ===================================================================== *)

Module TranscriptionService.
Import JS.

(** What [extractAudioSnippets] sees of the host: whether preparing the
    snippets directory throws, the [path] module, and whether SoX leaves
    the requested snippet ([result.status === 0 && fs.existsSync]). *)
Record SnippetHost := {
  mkdirThrows : bool;
  dirname : string -> string;
  join : string -> string -> string;
  soxExtracts : string -> string -> nat -> bool
}.

Definition extractAudioSnippets (h : SnippetHost) (audioFilePath : string)
    (numSpeakers : nat) : list string :=
  if mkdirThrows h then []
  else
    let snippetsDir := join h (dirname h audioFilePath) "snippets" in
    List.map (fun i =>
           let startTime := (i * 30 + 10)%nat in
           let snippetPath :=
             join h snippetsDir ("speaker_" +:+ showNat (i + 1) +:+ "_sample.wav") in
           if soxExtracts h audioFilePath snippetPath startTime
           then snippetPath else "")
        (seq 0 numSpeakers).

Definition conversationIndicators : list string :=
  [ "yes"; "no"; "okay"; "right"; "exactly"; "sure"; "definitely";
    "question"; "answer"; "think"; "believe"; "agree"; "disagree" ].

Definition addressPatterns : list string := [ "you"; "your"; "we"; "us"; "our" ].

Definition isIndicator (word : string) : bool :=
  includes conversationIndicators word || includes addressPatterns word.

(** [transcript.toLowerCase().split(/\s+/)] *)
Definition words (transcript : string) : list string :=
  split isWhiteSpace (toLowerCase transcript).

Definition totalWords (transcript : string) : nat := length (words transcript).

Definition indicatorCount (transcript : string) : nat :=
  length (List.filter isIndicator (words transcript)).

Definition indicatorRatio (transcript : string) : Q :=
  ratio (indicatorCount transcript) (totalWords transcript).

Definition isSentenceEnd (c : ascii) : bool :=
  Ascii.eqb c "." || Ascii.eqb c "!" || Ascii.eqb c "?".

(** [transcript.split(/[.!?]+/).filter(s => s.trim().length > 10)]: the
    pieces are kept as they were cut, only the test trims them. *)
Definition sentences (transcript : string) : list string :=
  List.filter (fun s => (10 <? String.length (trim s))%nat) (split isSentenceEnd transcript).

(** [sentences.filter(s => s.split(/\s+/).length < 15).length] *)
Definition shortSentences (transcript : string) : nat :=
  length (List.filter (fun s => (length (split isWhiteSpace s) <? 15)%nat)
                      (sentences transcript)).

(** The value of [numSpeakers] after the ratio test of a long transcript. *)
Definition ratioEstimate (transcript : string) : nat :=
  if gt (indicatorRatio transcript) 0.15 then 3
  else if gt (indicatorRatio transcript) 0.08 then 2
  else 1.

(** The dialogue test on sentence lengths. *)
Definition looksLikeDialogue (transcript : string) : bool :=
  (5 <? length (sentences transcript))%nat
  && gt (ratio (shortSentences transcript) (length (sentences transcript))) 0.6.

(** The final value of [numSpeakers]. *)
Definition numSpeakers (transcript : string) : nat :=
  let n := 1%nat in
  let n :=
    if (100 <? totalWords transcript)%nat then
      let n := ratioEstimate transcript in
      if looksLikeDialogue transcript then Nat.max n 2 else n
    else n in
  Nat.min n 4.

Definition speakerAt (random : nat -> Q) (audioSnippets : list string) (i : nat) : Speaker :=
  {| sp_id := "speaker_" +:+ showNat (i + 1);
     sp_name := "Speaker " +:+ showNat (i + 1);
     sp_confidence := 0.75 + random i * 0.2;
     sp_sampleAudio := default "" (audioSnippets !! i) |}.

(** [random i] is the draw of [Math.random()] made for speaker [i]. *)
Definition simulateSpeakerDiarization (h : SnippetHost) (random : nat -> Q)
    (transcript : string) (audioFilePath : option string) : list Speaker :=
  let n := numSpeakers transcript in
  let audioSnippets :=
    match audioFilePath with
    | Some p => if truthy p then extractAudioSnippets h p n else []
    | None => []
    end in
  List.map (speakerAt random audioSnippets) (seq 0 n).

(** The host of [transcribeAudio]: the OpenAI client, the file system,
    and the sources of randomness. *)
Record Host := {
  openaiReady : bool;
  fileExists : string -> bool;
  transcribe : string -> Outcome string;
  fileSize : string -> Z;
  random : nat -> Q;
  snippets : SnippetHost
}.

(** [Math.floor(stats.size / 32000)] *)
Definition getAudioDuration (h : Host) (audioFilePath : string) : Z :=
  (fileSize h audioFilePath / 32000)%Z.

Definition transcribeAudio (h : Host) (audioFilePath : string)
    : Outcome TranscriptionResult :=
  if negb (openaiReady h) then
    Rejected "OpenAI client not initialized. Please check your API key."
  else if negb (fileExists h audioFilePath) then
    Rejected ("Audio file not found: " +:+ audioFilePath)
  else
    match transcribe h audioFilePath with
    | Rejected msg => Rejected ("Transcription failed: " +:+ msg)
    | Resolved transcript =>
        let speakers :=
          simulateSpeakerDiarization (snippets h) (random h) transcript (Some audioFilePath) in
        Resolved {| tr_transcript := transcript;
                    tr_speakers := speakers;
                    tr_confidence := 0.9;
                    tr_duration := getAudioDuration h audioFilePath |}
    end.

End TranscriptionService.

(** The sentence test as the specification words it, to compare with
    [TranscriptionService.shortSentences]: the kept sentences are trimmed,
    and a sentence is short when it has fewer than 15 words. *)
Module SpecWording.
Import JS TranscriptionService.

Definition trimmedSentences (transcript : string) : list string :=
  List.filter (fun s => (10 <? String.length s)%nat)
              (List.map trim (split isSentenceEnd transcript)).

Definition shortTrimmedSentences (transcript : string) : nat :=
  length (List.filter (fun s => (length (split isWhiteSpace s) <? 15)%nat)
                      (trimmedSentences transcript)).

End SpecWording.

(* ===================================================================== *)
(** ** AudioRecordingService: the recording session controller           *)
(* ===================================================================== *)

Module AudioRecordingService.
Import JS.

Inductive RecordProgram := Sox | Rec.

Inductive WarningLevel := LevelWarning | LevelCritical.

(** What the service emits to its listeners. *)
Inductive Event :=
| RecordingError (message : string)
| RecordingStarted (fileName : string)
| RecordingStopped (fileName : option string) (duration : Z) (audioFilePath : option string)
| TimeWarning (duration : Z) (message : string) (level : WarningLevel)
| StatusUpdate (status : RecordingStatus).

(** What the service does to the host, in the order it does it. *)
Inductive Effect :=
| Emit (e : Event)
| CreateWriteStream (filePath : string)
| StartRecorder (program : RecordProgram)
| StopRecorder
| EndWriteStream (filePath : string)
| SetInterval (timer : nat)
| ClearInterval (timer : nat).

(** The fields of the service.  The write stream is known by its path, a
    timer by its handle. *)
Record Controller := {
  recording : option RecordProgram;
  isRecording : bool;
  startTime : option Z;
  audioFile : option string;
  currentFileName : option string;
  recordingsDir : string;
  statusInterval : option nat
}.

Inductive StartResult := StartOk (fileName : string) | StartFailed (error : string).

Inductive StopResult :=
| StopOk (audioFilePath : option string) (duration : Z)
| StopFailed (error : string).

Definition alreadyRecording : string := "Recording already in progress".
Definition notRecording : string := "No recording in progress".

(** [path.join(dir, name)] on a normalized POSIX directory. *)
Definition pathJoin (dir name : string) : string := dir +:+ "/" +:+ name.

(** The host as [startRecording] meets it: which capture programs [which]
    finds, the platform, the two readings of the clock ([toISOString] and
    milliseconds), whether starting the recorder throws, and the handle
    the next [setInterval] returns. *)
Record StartHost := {
  hasSox : bool;
  hasRec : bool;
  darwin : bool;
  isoNow : string;
  startNow : Z;
  recorderThrows : option string;
  nextTimer : nat
}.

Record StopHost := {
  stopNow : Z;
  stopThrows : option string;
  endThrows : option string
}.

Definition findRecordProgram (h : StartHost) : option RecordProgram :=
  if hasSox h then Some Sox else if hasRec h then Some Rec else None.

Definition startStatusUpdates (timer : nat) (c : Controller) : Controller * list Effect :=
  let cleared :=
    match statusInterval c with
    | Some old => [ClearInterval old]
    | None => []
    end in
  ({| recording := recording c; isRecording := isRecording c;
      startTime := startTime c; audioFile := audioFile c;
      currentFileName := currentFileName c; recordingsDir := recordingsDir c;
      statusInterval := Some timer |},
   cleared ++ [SetInterval timer]).

Definition isColonOrDot (c : ascii) : bool := Ascii.eqb c ":" || Ascii.eqb c ".".

Definition startRecording (h : StartHost) (c : Controller)
    : StartResult * Controller * list Effect :=
  if isRecording c then (StartFailed alreadyRecording, c, [])
  else
    match findRecordProgram h with
    | None =>
        let help :=
          if darwin h then "Install SoX: brew install sox"
          else "Please install SoX and ensure " +:+ String "034" "sox" +:+ String "034" " or "
               +:+ String "034" "rec" +:+ String "034" " is on your PATH" in
        let message := "Audio backend not found. " +:+ help in
        (StartFailed message, c, [Emit (RecordingError message)])
    | Some recordProgram =>
        let timestamp := sliceTo 19 (replaceAll isColonOrDot "-" (isoNow h)) in
        let fileName := "meeting_" +:+ timestamp +:+ ".wav" in
        let filePath := pathJoin (recordingsDir c) fileName in
        match recorderThrows h with
        | Some message =>
            (StartFailed message,
             {| recording := recording c; isRecording := false;
                startTime := startTime c; audioFile := Some filePath;
                currentFileName := Some fileName; recordingsDir := recordingsDir c;
                statusInterval := statusInterval c |},
             [CreateWriteStream filePath])
        | None =>
            let started :=
              {| recording := Some recordProgram; isRecording := true;
                 startTime := Some (startNow h); audioFile := Some filePath;
                 currentFileName := Some fileName; recordingsDir := recordingsDir c;
                 statusInterval := statusInterval c |} in
            let '(c', timers) := startStatusUpdates (nextTimer h) started in
            (StartOk fileName, c',
             [CreateWriteStream filePath; StartRecorder recordProgram]
               ++ timers ++ [Emit (RecordingStarted fileName)])
        end
    end.

(** [Math.floor((now - startTime) / 1000)] *)
Definition elapsed (start now : Z) : Z := ((now - start) / 1000)%Z.

Definition stopRecording (h : StopHost) (c : Controller)
    : StopResult * Controller * list Effect :=
  if negb (isRecording c) then (StopFailed notRecording, c, [])
  else
    match recording c, stopThrows h with
    | Some _, Some message => (StopFailed message, c, [])
    | _, _ =>
        let stopped := match recording c with Some _ => [StopRecorder] | None => [] end in
        match audioFile c, endThrows h with
        | Some _, Some message =>
            (StopFailed message,
             {| recording := None; isRecording := isRecording c;
                startTime := startTime c; audioFile := audioFile c;
                currentFileName := currentFileName c; recordingsDir := recordingsDir c;
                statusInterval := statusInterval c |},
             stopped)
        | _, _ =>
            let ended :=
              match audioFile c with Some p => [EndWriteStream p] | None => [] end in
            let duration :=
              match startTime c with
              | Some t => elapsed t (stopNow h)
              | None => 0%Z
              end in
            let audioFilePath := pathJoin (recordingsDir c) <$> currentFileName c in
            let cleared :=
              match statusInterval c with
              | Some t => [ClearInterval t]
              | None => []
              end in
            (StopOk (audioFilePath ≫= fun p => if truthy p then Some p else None) duration,
             {| recording := None; isRecording := false; startTime := None;
                audioFile := None; currentFileName := None;
                recordingsDir := recordingsDir c; statusInterval := None |},
             stopped ++ ended ++ cleared
               ++ [Emit (RecordingStopped (currentFileName c) duration audioFilePath)])
        end
    end.

(** [rnd] is the draw of [Math.random()]. *)
Definition getAudioLevel (rnd : Q) (c : Controller) : Q :=
  if negb (isRecording c) then 0 else rnd * 0.8 + 0.1.

Definition getRecordingStatus (now : Z) (rnd : Q) (c : Controller) : RecordingStatus :=
  let duration :=
    match isRecording c, startTime c with
    | true, Some t => elapsed t now
    | _, _ => 0%Z
    end in
  {| rs_isRecording := isRecording c;
     rs_duration := duration;
     rs_audioLevel := getAudioLevel rnd c;
     rs_fileName := currentFileName c ≫= fun f => if truthy f then Some f else None |}.

Definition warningMessage : string :=
  "Recording has reached 70 minutes. Do you want to continue?".
Definition criticalMessage : string :=
  "Recording has reached 90 minutes. This is getting quite long. Do you want to continue?".

(** The time warning, if any, that a tick observing [duration] emits. *)
Definition timeWarningAt (duration : Z) : list Effect :=
  if (duration =? 70 * 60)%Z then
    [Emit (TimeWarning duration warningMessage LevelWarning)]
  else if (duration =? 90 * 60)%Z then
    [Emit (TimeWarning duration criticalMessage LevelCritical)]
  else [].

(** The callback that [startStatusUpdates] hands to [setInterval], run
    when the clock reads [now]. *)
Definition statusTick (now : Z) (rnd : Q) (c : Controller) : Controller * list Effect :=
  if negb (isRecording c) then
    match statusInterval c with
    | Some t =>
        ({| recording := recording c; isRecording := isRecording c;
            startTime := startTime c; audioFile := audioFile c;
            currentFileName := currentFileName c; recordingsDir := recordingsDir c;
            statusInterval := None |},
         [ClearInterval t])
    | None => (c, [])
    end
  else
    let status := getRecordingStatus now rnd c in
    let duration := rs_duration status in
    (c, timeWarningAt duration ++ [Emit (StatusUpdate status)]).

Definition pauseForUserChoice (c : Controller) : Controller * list Effect :=
  match statusInterval c with
  | Some t =>
      ({| recording := recording c; isRecording := isRecording c;
          startTime := startTime c; audioFile := audioFile c;
          currentFileName := currentFileName c; recordingsDir := recordingsDir c;
          statusInterval := None |},
       [ClearInterval t])
  | None => (c, [])
  end.

Definition resumeStatusUpdates (timer : nat) (c : Controller) : Controller * list Effect :=
  if isRecording c then startStatusUpdates timer c else (c, []).

Definition destroy (h : StopHost) (c : Controller) : Controller * list Effect :=
  let '(c1, fx1) :=
    if isRecording c then
      let '(_, c', fx) := stopRecording h c in (c', fx)
    else (c, []) in
  let '(c2, fx2) := pauseForUserChoice c1 in
  (c2, fx1 ++ fx2).

(** A session under a clock: the interval callback run at each reading
    [(now, rnd)] of the clock and of [Math.random()], in order. *)
Fixpoint runTicks (ticks : list (Z * Q)) (c : Controller) : Controller * list Effect :=
  match ticks with
  | [] => (c, [])
  | (now, rnd) :: rest =>
      let '(c1, fx1) := statusTick now rnd c in
      let '(c2, fx2) := runTicks rest c1 in
      (c2, fx1 ++ fx2)
  end.

(** The time warnings among the effects, as (level, duration). *)
Definition timeWarnings (fx : list Effect) : list (WarningLevel * Z) :=
  flat_map (fun e =>
              match e with
              | Emit (TimeWarning d _ level) => [(level, d)]
              | _ => []
              end) fx.

(** The warnings of one tick that observes [duration]. *)
Definition warningsAt (duration : Z) : list (WarningLevel * Z) :=
  timeWarnings (timeWarningAt duration).

Definition isLevel (l : WarningLevel) (w : WarningLevel * Z) : bool :=
  match l, fst w with
  | LevelWarning, LevelWarning | LevelCritical, LevelCritical => true
  | _, _ => false
  end.

(** One recording session: a start, the interval callback at each
    reading of the clock, and a stop. *)
Definition recordingSession (hs : StartHost) (ticks : list (Z * Q)) (hp : StopHost)
    (c : Controller) : Controller * list Effect :=
  let '(_, c1, fx1) := startRecording hs c in
  let '(c2, fx2) := runTicks ticks c1 in
  let '(_, c3, fx3) := stopRecording hp c2 in
  (c3, fx1 ++ fx2 ++ fx3).

(** The clock visits each elapsed second once: the readings taken since
    [start] fall in the seconds 1, 2, ..., [n], in this order. *)
Definition visitsEachSecond (start : Z) (ticks : list (Z * Q)) (n : nat) : Prop :=
  List.map (fun tick => elapsed start (fst tick)) ticks = List.map Z.of_nat (seq 1 n).

(** How many warnings of level [l] the effects contain. *)
Definition countLevel (l : WarningLevel) (fx : list Effect) : nat :=
  length (List.filter (isLevel l) (timeWarnings fx)).

End AudioRecordingService.

(* ===================================================================== *)
(** ** SpeakerIdentification: the naming dialog                          *)
(* ===================================================================== *)

Module SpeakerIdentification.
Import JS.

(** The [speakerNames] state: an object from speaker id to typed name. *)
Definition initialNames (speakers : list Speaker) : gmap string string :=
  foldl (fun initialNames speaker => <[sp_id speaker := ""]> initialNames) ∅ speakers.

Definition handleNameChange (speakerId name : string) (prev : gmap string string)
    : gmap string string :=
  <[speakerId := name]> prev.

(** [Object.values(speakerNames)] *)
Definition values (speakerNames : gmap string string) : list string :=
  (map_to_list speakerNames).*2.

(** [name.trim() !== ''] *)
Definition nonBlank (name : string) : bool := negb (String.eqb (trim name) "").

Definition hasAtLeastOneName (speakerNames : gmap string string) : bool :=
  existsb nonBlank (values speakerNames).

(** [names.length === new Set(names).size] over the non-blank names. *)
Definition hasUniquenames (speakerNames : gmap string string) : bool :=
  let names := List.filter nonBlank (values speakerNames) in
  (length names =? size (list_to_set names : gset string))%nat.

(** [`Speaker ${speaker.id.split('_')[1]}`] *)
Definition genericName (speaker : Speaker) : string :=
  "Speaker " +:+ default "undefined" (splitChar "_" (sp_id speaker) !! 1%nat).

(** [speakerNames[speaker.id] || genericName] *)
Definition identifiedName (speakerNames : gmap string string) (speaker : Speaker) : string :=
  match speakerNames !! sp_id speaker with
  | Some name => if truthy name then name else genericName speaker
  | None => genericName speaker
  end.

Definition withName (speaker : Speaker) (name : string) : Speaker :=
  {| sp_id := sp_id speaker; sp_name := name;
     sp_confidence := sp_confidence speaker;
     sp_sampleAudio := sp_sampleAudio speaker |}.

(** The list handed to [onSpeakersIdentified]. *)
Definition handleConfirmSpeakers (speakers : list Speaker)
    (speakerNames : gmap string string) : list Speaker :=
  List.map (fun speaker => withName speaker (identifiedName speakerNames speaker)) speakers.

(** The Confirm button is enabled unless
    [disabled={!hasAtLeastOneName || !hasUniquenames()}]. *)
Definition confirmEnabled (speakerNames : gmap string string) : bool :=
  hasAtLeastOneName speakerNames && hasUniquenames speakerNames.

(** A click on Confirm: a disabled button submits nothing. *)
Definition clickConfirm (speakers : list Speaker) (speakerNames : gmap string string)
    : option (list Speaker) :=
  if confirmEnabled speakerNames then Some (handleConfirmSpeakers speakers speakerNames)
  else None.

End SpeakerIdentification.

(* ===================================================================== *)
(** ** ProcessingWorkflow: the processing pipeline                       *)
(* ===================================================================== *)

Module ProcessingWorkflow.
Import JS.

Inductive ProcessingStep :=
| StepTranscription
| StepSpeakerIdentification
| StepAIAnalysis
| StepSaving
| StepComplete.

(** The component state, one field per [useState]. *)
Record State := {
  currentStep : ProcessingStep;
  progress : nat;
  transcriptionResult : option TranscriptionResult;
  analysisResult : option AIAnalysisResult;
  error : option string;
  deleteRecording : bool
}.

Definition initialState : State :=
  {| currentStep := StepTranscription; progress := 0;
     transcriptionResult := None; analysisResult := None;
     error := None; deleteRecording := true |}.

Record Metadata := {
  meta_date : string;
  meta_duration : Z;
  meta_participants : list string
}.

Record DeleteResult := { del_success : bool; del_error : option string }.

(** [window.electronAPI] and the clock, as the workflow meets them. *)
Record ElectronAPI := {
  processAudio : string -> Outcome TranscriptionResult;
  analyzeMeeting : string -> Metadata -> Outcome AIAnalysisResult;
  databaseSaveMeeting : MeetingDraft -> Outcome Meeting;
  deleteAudio : string -> Outcome DeleteResult;
  analysisDate : string;
  savingDate : string
}.

(** What a handler does, in order: state setters, calls through the
    bridge, console output, and the delayed [onComplete] and [navigate]. *)
Inductive Effect :=
| SetCurrentStep (step : ProcessingStep)
| SetProgress (percent : nat)
| SetTranscriptionResult (result : TranscriptionResult)
| SetAnalysisResult (analysis : AIAnalysisResult)
| SetError (message : option string)
| SetDeleteRecording (checked : bool)
| CallProcessAudio (audioFilePath : string)
| CallAnalyzeMeeting (transcript : string) (metadata : Metadata)
| CallSaveMeeting (meeting : MeetingDraft)
| CallDeleteAudio (audioFilePath : string)
| ConsoleLog (message : string)
| ConsoleWarn (message : string)
| ConsoleError (message : string)
| OnComplete (meeting : Meeting)
| Navigate (url : string)
| OnCancel.

(** The state after one effect: only the setters write it. *)
Definition apply (st : State) (e : Effect) : State :=
  match e with
  | SetCurrentStep step =>
      {| currentStep := step; progress := progress st;
         transcriptionResult := transcriptionResult st;
         analysisResult := analysisResult st; error := error st;
         deleteRecording := deleteRecording st |}
  | SetProgress percent =>
      {| currentStep := currentStep st; progress := percent;
         transcriptionResult := transcriptionResult st;
         analysisResult := analysisResult st; error := error st;
         deleteRecording := deleteRecording st |}
  | SetTranscriptionResult result =>
      {| currentStep := currentStep st; progress := progress st;
         transcriptionResult := Some result;
         analysisResult := analysisResult st; error := error st;
         deleteRecording := deleteRecording st |}
  | SetAnalysisResult analysis =>
      {| currentStep := currentStep st; progress := progress st;
         transcriptionResult := transcriptionResult st;
         analysisResult := Some analysis; error := error st;
         deleteRecording := deleteRecording st |}
  | SetError message =>
      {| currentStep := currentStep st; progress := progress st;
         transcriptionResult := transcriptionResult st;
         analysisResult := analysisResult st; error := message;
         deleteRecording := deleteRecording st |}
  | SetDeleteRecording checked =>
      {| currentStep := currentStep st; progress := progress st;
         transcriptionResult := transcriptionResult st;
         analysisResult := analysisResult st; error := error st;
         deleteRecording := checked |}
  | _ => st
  end.

Definition run (st : State) (fx : list Effect) : State := foldl apply st fx.

(** The handlers are closures of one render of the component: they read
    [transcriptionResult] and [deleteRecording] as that render saw them
    ([render]) and write the state through the setters. *)
Section Handlers.
Variable api : ElectronAPI.
Variable audioFilePath : string.

(** The record that [saveMeeting] hands to the database. *)
Definition meetingDraft (render : State) (result : TranscriptionResult)
    (speakers : list Speaker) (analysis : AIAnalysisResult) : MeetingDraft :=
  {| md_title := an_suggestedTitle analysis;
     md_date := savingDate api;
     md_duration := tr_duration result;
     md_participants := List.map sp_name speakers;
     md_transcript := tr_transcript result;
     md_summary := an_summary analysis;
     md_decisions := an_decisions analysis;
     md_actionItems := an_actionItems analysis;
     md_audioFilePath :=
       if deleteRecording render then None else Some audioFilePath;
     md_tags := an_keyTopics analysis;
     md_notes := "" |}.

Definition saveMeeting (render : State) (speakers : list Speaker)
    (analysis : AIAnalysisResult) : list Effect :=
  let failed :=
    [ConsoleError "Failed to save meeting:";
     SetError (Some "Failed to save meeting. Please try again.")] in
  [SetCurrentStep StepSaving; SetProgress 90] ++
  match transcriptionResult render with
  | None => failed
  | Some result =>
      let meeting := meetingDraft render result speakers analysis in
      CallSaveMeeting meeting ::
      match databaseSaveMeeting api meeting with
      | Rejected _ => failed
      | Resolved savedMeeting =>
          (if deleteRecording render then
             CallDeleteAudio audioFilePath ::
             match deleteAudio api audioFilePath with
             | Resolved _ => [ConsoleLog "Audio file deleted successfully:"]
             | Rejected _ => [ConsoleWarn "Failed to delete audio file:"]
             end
           else []) ++
          [SetProgress 100; SetCurrentStep StepComplete;
           OnComplete savedMeeting;
           Navigate ("/meeting/" +:+ mt_id savedMeeting)]
      end
  end.

Definition startAIAnalysis (render : State) (speakers : list Speaker) : list Effect :=
  let failed :=
    [ConsoleError "AI analysis failed:";
     SetError (Some "Failed to analyze meeting. Please check your API configuration.")] in
  [SetCurrentStep StepAIAnalysis; SetProgress 60] ++
  match transcriptionResult render with
  | None => failed
  | Some result =>
      let metadata :=
        {| meta_date := analysisDate api;
           meta_duration := tr_duration result;
           meta_participants := List.map sp_name speakers |} in
      CallAnalyzeMeeting (tr_transcript result) metadata ::
      match analyzeMeeting api (tr_transcript result) metadata with
      | Rejected _ => failed
      | Resolved analysis =>
          [SetAnalysisResult analysis; SetProgress 80]
            ++ saveMeeting render speakers analysis
      end
  end.

Definition startTranscription (render : State) : list Effect :=
  [SetCurrentStep StepTranscription; SetProgress 10;
   CallProcessAudio audioFilePath] ++
  match processAudio api audioFilePath with
  | Rejected _ =>
      [ConsoleError "Transcription failed:";
       SetError (Some "Failed to transcribe audio. Please check your API configuration.")]
  | Resolved result =>
      [SetTranscriptionResult result; SetProgress 40] ++
      if (0 <? length (tr_speakers result))%nat then
        [SetCurrentStep StepSpeakerIdentification]
      else startAIAnalysis render []
  end.

Definition handleSpeakersIdentified (render : State)
    (identifiedSpeakers : list Speaker) : list Effect :=
  startAIAnalysis render identifiedSpeakers.

Definition handleSkipSpeakerIdentification (render : State) : list Effect :=
  let genericSpeakers :=
    match transcriptionResult render with
    | Some result =>
        imap (fun index speaker =>
                SpeakerIdentification.withName speaker
                  ("Speaker " +:+ showNat (index + 1)))
             (tr_speakers result)
    | None => []
    end in
  startAIAnalysis render genericSpeakers.

(** What the component shows: the three [return]s of the render. *)
Inductive View :=
| ErrorView (message : string)
| NamingView (speakers : list Speaker)
| ProgressView.

Definition view (st : State) : View :=
  match error st with
  | Some message => if truthy message then ErrorView message else
      match currentStep st, transcriptionResult st with
      | StepSpeakerIdentification, Some result => NamingView (tr_speakers result)
      | _, _ => ProgressView
      end
  | None =>
      match currentStep st, transcriptionResult st with
      | StepSpeakerIdentification, Some result => NamingView (tr_speakers result)
      | _, _ => ProgressView
      end
  end.

(** The component together with the naming dialog it hosts. *)
Record UI := {
  workflow : State;
  speakerNames : gmap string string
}.

Inductive UserAction :=
| ClickRetry
| ClickCancel
| TypeName (speakerId name : string)
| ClickConfirm
| ClickSkip
| ToggleDelete (checked : bool).

Definition isComplete (step : ProcessingStep) : bool :=
  match step with StepComplete => true | _ => false end.

(** The effects of a user action on what is on screen; a control that
    is not rendered, or is disabled, does nothing. *)
Definition react (ui : UI) (a : UserAction) : list Effect :=
  let st := workflow ui in
  match view st, a with
  | ErrorView _, ClickRetry => [SetError None]
  | ErrorView _, ClickCancel => [OnCancel]
  | NamingView speakers, ClickConfirm =>
      match SpeakerIdentification.clickConfirm speakers (speakerNames ui) with
      | Some identified => handleSpeakersIdentified st identified
      | None => []
      end
  | NamingView _, ClickSkip => handleSkipSpeakerIdentification st
  | ProgressView, ToggleDelete checked =>
      if isComplete (currentStep st) then [] else [SetDeleteRecording checked]
  | ProgressView, ClickCancel =>
      if isComplete (currentStep st) then [] else [OnCancel]
  | _, _ => []
  end.

Definition typed (ui : UI) (a : UserAction) : gmap string string :=
  match view (workflow ui), a with
  | NamingView _, TypeName speakerId name =>
      SpeakerIdentification.handleNameChange speakerId name (speakerNames ui)
  | _, _ => speakerNames ui
  end.

Definition act (ui : UI) (a : UserAction) : UI * list Effect :=
  let fx := react ui a in
  ({| workflow := run (workflow ui) fx; speakerNames := typed ui a |}, fx).

(** Mounting the component: the effect hook runs [startTranscription]
    of the first render; the naming dialog, if it comes up, starts from
    [initialNames] of the detected speakers. *)
Definition mount : UI * list Effect :=
  let fx := startTranscription initialState in
  let st := run initialState fx in
  ({| workflow := st;
      speakerNames :=
        match view st with
        | NamingView speakers => SpeakerIdentification.initialNames speakers
        | _ => ∅
        end |}, fx).

(** A session of the user with the mounted component. *)
Fixpoint session (ui : UI) (actions : list UserAction) : UI * list Effect :=
  match actions with
  | [] => (ui, [])
  | a :: rest =>
      let '(ui1, fx1) := act ui a in
      let '(ui2, fx2) := session ui1 rest in
      (ui2, fx1 ++ fx2)
  end.

End Handlers.

(** The steps the run was put in, in order. *)
Definition steps (fx : list Effect) : list ProcessingStep :=
  flat_map (fun e => match e with SetCurrentStep s => [s] | _ => [] end) fx.

(** The drafts handed to the persistence collaborator, in order. *)
Definition saved (fx : list Effect) : list MeetingDraft :=
  flat_map (fun e => match e with CallSaveMeeting m => [m] | _ => [] end) fx.

(** The metadata handed to the analysis collaborator, in order. *)
Definition analysed (fx : list Effect) : list Metadata :=
  flat_map (fun e => match e with CallAnalyzeMeeting _ m => [m] | _ => [] end) fx.

(** The audio files whose deletion was requested, in order. *)
Definition deleted (fx : list Effect) : list string :=
  flat_map (fun e => match e with CallDeleteAudio p => [p] | _ => [] end) fx.

(** The records exposed to the observer through [onComplete]. *)
Definition completed (fx : list Effect) : list Meeting :=
  flat_map (fun e => match e with OnComplete m => [m] | _ => [] end) fx.

(** The failures reported through [setError]. *)
Definition failures (fx : list Effect) : list string :=
  flat_map (fun e => match e with SetError (Some m) => [m] | _ => [] end) fx.

(** A deletion failed: the bridge rejected, or the file service answered
    [{ success: false }]. *)
Definition deletionFailed (o : Outcome DeleteResult) : Prop :=
  match o with
  | Rejected _ => True
  | Resolved r => del_success r = false
  end.

(** The run went from transcription straight to analysis. *)
Definition reachesAnalyzingDirectly (fx : list Effect) : Prop :=
  exists rest, steps fx = StepTranscription :: StepAIAnalysis :: rest.

(** The two actions that answer the naming dialog. *)
Definition answersNaming (a : UserAction) : bool :=
  match a with
  | ClickConfirm | ClickSkip => true
  | _ => false
  end.

End ProcessingWorkflow.

(* ===================================================================== *)
(** ** Concrete inputs                                                   *)
(* ===================================================================== *)

Module Scenario.
Import JS.

(** Words joined by single blanks. *)
Fixpoint unwords (ws : list string) : string :=
  match ws with
  | [] => ""
  | [w] => w
  | w :: rest => w +:+ " " +:+ unwords rest
  end.

(** Sentences, each closed by a full stop, joined by single blanks. *)
Definition paragraph (ss : list string) : string :=
  unwords (List.map (fun s => s +:+ ".") ss).

Definition budgetTranscript : string :=
  "Yes I agree, you said the budget is approved".


(** 500 words, 100 of them address words: ratio 0.20. *)
Definition fiveHundredWords : string :=
  unwords (replicate 100 "YOU" ++ replicate 400 "budget").

(** 120 words, 12 of them conversational: ratio 0.10. *)
Definition moderate : string :=
  unwords (replicate 12 "Okay" ++ replicate 108 "budget").


(** 120 words, exactly 18 conversational: ratio 0.15, not above it. *)
Definition borderline : string :=
  unwords (replicate 18 "agree" ++ replicate 102 "budget").

(** Eight sentences of 13 plain words: 104 words. *)
Definition thirteen : string :=
  "the budget was approved by the board of directors in a meeting today".
Definition dialogue : string := paragraph (replicate 8 thirteen).

(** Eight sentences of 14 plain words: 112 words. *)
Definition fourteen : string :=
  "the budget was approved by the board of directors in a long meeting today".
Definition longer : string := paragraph (replicate 8 fourteen).

Import AudioRecordingService.

Definition idle : Controller :=
  {| recording := None; isRecording := false; startTime := None;
     audioFile := None; currentFileName := None;
     recordingsDir := "/home/ada/MeetingIntelligence/recordings";
     statusInterval := None |}.

Definition morning : StartHost :=
  {| hasSox := false; hasRec := true; darwin := false;
     isoNow := "2024-03-05T09:30:00.123Z"; startNow := 1709631000123;
     recorderThrows := None; nextTimer := 7 |}.

(** The controller once a session has started. *)
Definition busy : Controller := snd (fst (startRecording morning idle)).

(** A clock that fires 17 ms late every second, [n] times. *)
Definition lateClock (n : nat) : list (Z * Q) :=
  List.map (fun k => ((startNow morning + 1000 * Z.of_nat k + 17)%Z, 0.5%Q)) (seq 1 n).

Definition noon : StopHost :=
  {| stopNow := 1709636400500; stopThrows := None; endThrows := None |}.

Definition later : StartHost :=
  {| hasSox := true; hasRec := true; darwin := true;
     isoNow := "2024-03-05T09:31:00.000Z"; startNow := 1709631060000;
     recorderThrows := None; nextTimer := 8 |}.

Import TranscriptionService ProcessingWorkflow.

Definition recordingPath : string :=
  "/home/ada/MeetingIntelligence/recordings/meeting_2024-03-05T09-30-00.wav".

Definition posix : SnippetHost :=
  {| mkdirThrows := false;
     dirname := fun _ => "/home/ada/MeetingIntelligence/recordings";
     join := pathJoin;
     soxExtracts := fun _ _ startTime => (startTime <? 60)%nat |}.

(** A host whose transcription service hears [transcript]. *)
Definition studio (transcript : string) : Host :=
  {| openaiReady := true;
     fileExists := fun _ => true;
     transcribe := fun _ => Resolved transcript;
     fileSize := fun _ => 960000%Z;
     random := fun _ => 0.5%Q;
     snippets := posix |}.

Definition fixedAnalysis : AIAnalysisResult :=
  {| an_summary := "The budget was approved.";
     an_decisions := ["Approve the budget"];
     an_actionItems := [];
     an_suggestedTitle := "Budget review";
     an_keyTopics := ["budget"] |}.

Definition persist (draft : MeetingDraft) : Meeting :=
  {| mt_id := "0b5c7a1e"; mt_createdAt := "2024-03-05T11:00:02.000Z";
     mt_updatedAt := "2024-03-05T11:00:02.000Z"; mt_draft := draft |}.

(** A bridge on which everything succeeds but, perhaps, the deletion. *)
Definition bridge (transcript : string) (deletion : Outcome DeleteResult) : ElectronAPI :=
  {| processAudio := transcribeAudio (studio transcript);
     analyzeMeeting := fun _ _ => Resolved fixedAnalysis;
     databaseSaveMeeting := fun draft => Resolved (persist draft);
     deleteAudio := fun _ => deletion;
     analysisDate := "2024-03-05T11:00:00.000Z";
     savingDate := "2024-03-05T11:00:01.000Z" |}.

Definition deletionOk : Outcome DeleteResult :=
  Resolved {| del_success := true; del_error := None |}.

Definition deletionDenied : Outcome DeleteResult := Rejected "EACCES: permission denied".

(** A bridge whose transcription reports no speaker at all. *)
Definition silentBridge : ElectronAPI :=
  {| processAudio := fun _ =>
       Resolved {| tr_transcript := budgetTranscript; tr_speakers := [];
                   tr_confidence := 0.9; tr_duration := 30 |};
     analyzeMeeting := fun _ _ => Resolved fixedAnalysis;
     databaseSaveMeeting := fun draft => Resolved (persist draft);
     deleteAudio := fun _ => deletionOk;
     analysisDate := "2024-03-05T11:00:00.000Z";
     savingDate := "2024-03-05T11:00:01.000Z" |}.

(** The render in which the naming dialog of [bridge transcript] is up. *)
Definition naming (transcript : string) : UI :=
  fst (mount (bridge transcript deletionOk) recordingPath).

(** Three voices; the user names the first and leaves a blank in the
    fields of the other two. *)
Definition blanks : list UserAction :=
  [TypeName "speaker_1" "Alice"; TypeName "speaker_2" " "; TypeName "speaker_3" " ";
   ClickConfirm].

(** Two voices; the user gives the first the generic name of the second. *)
Definition borrowed : list UserAction :=
  [TypeName "speaker_1" "Speaker 2"; ClickConfirm].

End Scenario.

(* ===================================================================== *)
(** ** The recording controller over its lifetime                        *)
(* ===================================================================== *)

Module ControllerOps.
Import JS AudioRecordingService.

(** The service as its constructor leaves it. *)
Definition construct (homedir : string) : Controller :=
  {| recording := None; isRecording := false; startTime := None;
     audioFile := None; currentFileName := None;
     recordingsDir := pathJoin (pathJoin homedir "MeetingIntelligence") "recordings";
     statusInterval := None |}.

(** The handler that [startRecording] registers on the recorder's stream:
    [this.stopRecording(); this.emit('recording:error', error)]. *)
Definition onStreamError (h : StopHost) (message : string) (c : Controller)
    : Controller * list Effect :=
  let '(_, c', fx) := stopRecording h c in
  (c', fx ++ [Emit (RecordingError message)]).

(** What can happen to the service: a call through the bridge, a firing of
    the interval, an error of the stream, the teardown. *)
Inductive Op :=
| OpStart (h : StartHost)
| OpStop (h : StopHost)
| OpTick (now : Z) (rnd : Q)
| OpPause
| OpResume (timer : nat)
| OpStreamError (h : StopHost) (message : string)
| OpDestroy (h : StopHost).

Definition step (op : Op) (c : Controller) : Controller * list Effect :=
  match op with
  | OpStart h => let '(_, c', fx) := startRecording h c in (c', fx)
  | OpStop h => let '(_, c', fx) := stopRecording h c in (c', fx)
  | OpTick now rnd => statusTick now rnd c
  | OpPause => pauseForUserChoice c
  | OpResume timer => resumeStatusUpdates timer c
  | OpStreamError h message => onStreamError h message c
  | OpDestroy h => destroy h c
  end.

Fixpoint runOps (ops : list Op) (c : Controller) : Controller * list Effect :=
  match ops with
  | [] => (c, [])
  | op :: rest =>
      let '(c1, fx1) := step op c in
      let '(c2, fx2) := runOps rest c1 in
      (c2, fx1 ++ fx2)
  end.

(** [clearInterval(t)]: the handle [t] is armed no more. *)
Fixpoint disarm (t : nat) (timers : list nat) : list nat :=
  match timers with
  | [] => []
  | t' :: rest => if (t =? t')%nat then rest else t' :: disarm t rest
  end.

(** The timers that are armed once the effects have taken place. *)
Definition armedAfter (timers : list nat) (fx : list Effect) : list nat :=
  foldl (fun timers e =>
           match e with
           | SetInterval t => t :: timers
           | ClearInterval t => disarm t timers
           | _ => timers
           end) timers fx.

(** The events emitted, in order. *)
Definition events (fx : list Effect) : list Event :=
  flat_map (fun e => match e with Emit ev => [ev] | _ => [] end) fx.

(** The files opened for writing, and those closed. *)
Definition opened (fx : list Effect) : list string :=
  flat_map (fun e => match e with CreateWriteStream p => [p] | _ => [] end) fx.

Definition closed (fx : list Effect) : list string :=
  flat_map (fun e => match e with EndWriteStream p => [p] | _ => [] end) fx.

(** The recorders started. *)
Definition recorders (fx : list Effect) : list RecordProgram :=
  flat_map (fun e => match e with StartRecorder p => [p] | _ => [] end) fx.

End ControllerOps.

Module ControllerInvariant.
Import AudioRecordingService.

(** What the fields of the service say about each other. *)
Definition consistent (c : Controller) : Prop :=
  (isRecording c = true ->
     is_Some (startTime c) /\ is_Some (currentFileName c) /\ is_Some (audioFile c))
  /\ (isRecording c = false -> startTime c = None /\ statusInterval c = None).

End ControllerInvariant.

(* ===================================================================== *)
(** ** SpeakerIdentification: how a speaker's confidence is shown        *)
(* ===================================================================== *)

Module SpeakerView.
Import JS.

(** [x >= y] on numbers. *)
Definition ge (x y : Q) : bool := Qle_bool y x.

Definition getConfidenceColor (confidence : Q) : string :=
  if ge confidence 0.8 then "text-green-600"
  else if ge confidence 0.6 then "text-yellow-600"
  else "text-red-600".

Definition getConfidenceLabel (confidence : Q) : string :=
  if ge confidence 0.8 then "High"
  else if ge confidence 0.6 then "Medium"
  else "Low".

End SpeakerView.

(* ===================================================================== *)
(** ** ProcessingWorkflow: the step list of the progress view            *)
(* ===================================================================== *)

Module WorkflowView.
Import JS ProcessingWorkflow.

Definition stepEqb (a b : ProcessingStep) : bool :=
  match a, b with
  | StepTranscription, StepTranscription
  | StepSpeakerIdentification, StepSpeakerIdentification
  | StepAIAnalysis, StepAIAnalysis
  | StepSaving, StepSaving
  | StepComplete, StepComplete => true
  | _, _ => false
  end.

(** [array.indexOf(x)], -1 when [x] is absent. *)
Fixpoint indexOf (x : ProcessingStep) (l : list ProcessingStep) : Z :=
  match l with
  | [] => (-1)%Z
  | y :: rest =>
      if stepEqb x y then 0%Z
      else match indexOf x rest with
           | Zneg _ => (-1)%Z
           | i => (i + 1)%Z
           end
  end.

(** The [steps] array of [getStepStatus]. *)
Definition stepOrder : list ProcessingStep :=
  [StepTranscription; StepSpeakerIdentification; StepAIAnalysis; StepSaving; StepComplete].

Definition getStepStatus (currentStep step : ProcessingStep) : string :=
  let currentIndex := indexOf currentStep stepOrder in
  let stepIndex := indexOf step stepOrder in
  if (stepIndex <? currentIndex)%Z then "complete"
  else if (stepIndex =? currentIndex)%Z then "active"
  else "pending".

(** The effects of the controls that run nothing: hiding the error,
    cancelling, ticking the cleanup box. *)
Definition idleEffect (e : Effect) : bool :=
  match e with
  | SetError None | OnCancel | SetDeleteRecording _ => true
  | _ => false
  end.

(** The pipeline runs that the naming dialog can start from the render
    [render]: the effects of [startAIAnalysis] on some list of speakers. *)
Definition pipelineRun (api : ElectronAPI) (audioFilePath : string) (fx : list Effect)
    : Prop :=
  exists render speakers, fx = startAIAnalysis api audioFilePath render speakers.

(** The audio files handed to the transcription collaborator, in order. *)
Definition transcribed (fx : list Effect) : list string :=
  flat_map (fun e => match e with CallProcessAudio p => [p] | _ => [] end) fx.


(** The speakers that the naming dialog on screen was given. *)
Definition dialogSpeakers (ui : UI) : list Speaker :=
  match view (workflow ui) with
  | NamingView speakers => speakers
  | _ => []
  end.

(** [a] comes before [b] in the order of the progress display. *)
Definition before (a b : ProcessingStep) : Prop :=
  (indexOf a stepOrder < indexOf b stepOrder)%Z.

End WorkflowView.

(* ===================================================================== *)
(** ** FileService: deleting a recording and its snippets                *)
(* ===================================================================== *)

Module FileService.
Import JS.

(** The paths that exist, files and directories alike. *)
Definition Disk := gset string.

(** What the file system decides: whether [unlink] and [rmdirSync] throw
    (and with which message), what [readdirSync] lists, and the [path]
    functions. *)
Record FsHost := {
  unlinkError : Disk -> string -> option string;
  readdirSync : Disk -> string -> Outcome (list string);
  rmdirError : Disk -> string -> option string;
  dirname : string -> string;
  join : string -> string -> string
}.

(** What the service does, in order; console output is kept up to the
    error object it ends with. *)
Inductive Effect :=
| Unlink (filePath : string)
| Readdir (dir : string)
| Rmdir (dir : string)
| ConsoleLog (message : string)
| ConsoleWarn (message : string)
| ConsoleError (message : string).

(** [{ success: boolean; error?: string }] *)
Definition Result := ProcessingWorkflow.DeleteResult.

Definition succeeded : Result :=
  {| ProcessingWorkflow.del_success := true; ProcessingWorkflow.del_error := None |}.

Definition failed (message : string) : Result :=
  {| ProcessingWorkflow.del_success := false;
     ProcessingWorkflow.del_error := Some message |}.

Definition existsSync (disk : Disk) (filePath : string) : bool :=
  bool_decide (filePath ∈ disk).

(** [array.join(separator)] *)
Fixpoint joinWith (separator : string) (l : list string) : string :=
  match l with
  | [] => ""
  | [s] => s
  | s :: rest => s +:+ separator +:+ joinWith separator rest
  end.

Definition deleteFile (h : FsHost) (disk : Disk) (filePath : string)
    : Result * Disk * list Effect :=
  if negb (existsSync disk filePath) then (succeeded, disk, [])
  else
    match unlinkError h disk filePath with
    | None =>
        (succeeded, disk ∖ {[filePath]},
         [Unlink filePath; ConsoleLog ("File deleted successfully: " +:+ filePath)])
    | Some message =>
        (failed message, disk,
         [Unlink filePath; ConsoleError ("Failed to delete file " +:+ filePath +:+ ":")])
    end.

(** The loop over the files of the snippets directory; the result of each
    deletion is dropped. *)
Fixpoint deleteSnippets (h : FsHost) (disk : Disk) (snippetsDir : string)
    (files : list string) : Disk * list Effect :=
  match files with
  | [] => (disk, [])
  | file :: rest =>
      let '(_, disk1, fx1) := deleteFile h disk (join h snippetsDir file) in
      let '(disk2, fx2) := deleteSnippets h disk1 snippetsDir rest in
      (disk2, fx1 ++ fx2)
  end.

(** [results.filter(r => r.error).map(r => r.error)] *)
Definition errorsOf (results : list Result) : list string :=
  flat_map (fun r => match ProcessingWorkflow.del_error r with
                     | Some message => if truthy message then [message] else []
                     | None => []
                     end) results.

(** Nothing in the body throws outside the inner [try] (the [path]
    functions and [existsSync] do not throw on strings, [deleteFile] does
    not reject), so the outer [catch] is never entered. *)
Definition deleteAudioWithSnippets (h : FsHost) (disk : Disk) (audioFilePath : string)
    : Result * Disk * list Effect :=
  let '(results, disk1, fx1) :=
    if truthy audioFilePath then
      let '(result, disk1, fx1) := deleteFile h disk audioFilePath in
      ([result], disk1, fx1)
    else ([], disk, []) in
  let snippetsDir := join h (dirname h audioFilePath) "snippets" in
  let '(disk2, fx2) :=
    if existsSync disk1 snippetsDir then
      match readdirSync h disk1 snippetsDir with
      | Rejected _ =>
          (disk1, [Readdir snippetsDir;
                   ConsoleWarn "Failed to clean up snippets directory:"])
      | Resolved files =>
          let '(d, fx) := deleteSnippets h disk1 snippetsDir files in
          match rmdirError h d snippetsDir with
          | None =>
              (d ∖ {[snippetsDir]},
               Readdir snippetsDir :: fx ++
               [Rmdir snippetsDir;
                ConsoleLog ("Snippets directory deleted: " +:+ snippetsDir)])
          | Some _ =>
              (d, Readdir snippetsDir :: fx ++
                  [Rmdir snippetsDir;
                   ConsoleWarn "Failed to clean up snippets directory:"])
          end
      end
    else (disk1, []) in
  let hasErrors :=
    existsb (fun r => negb (ProcessingWorkflow.del_success r)) results in
  (if hasErrors then failed (joinWith "; " (errorsOf results)) else succeeded,
   disk2, fx1 ++ fx2).

(** The [files:deleteAudio] handler as the renderer sees it through the
    bridge: the promise of [deleteAudioWithSnippets]. *)
Definition filesDeleteAudio (h : FsHost) (disk : Disk) (audioFilePath : string)
    : Outcome ProcessingWorkflow.DeleteResult :=
  Resolved (deleteAudioWithSnippets h disk audioFilePath).1.1.

(** The paths an effect list tried to unlink. *)
Definition unlinked (fx : list Effect) : list string :=
  flat_map (fun e => match e with Unlink p => [p] | _ => [] end) fx.

End FileService.

(* ===================================================================== *)
(** ** Concrete inputs of the file service                               *)
(* ===================================================================== *)

Module FileScenario.
Import JS FileService Scenario.

Definition recordingsDirectory : string := "/home/ada/MeetingIntelligence/recordings".

Definition snippetsDirectory : string :=
  AudioRecordingService.pathJoin recordingsDirectory "snippets".

Definition firstSnippet : string :=
  AudioRecordingService.pathJoin snippetsDirectory "speaker_1_sample.wav".

(** The recording, its snippets directory and one snippet. *)
Definition recorded : Disk := {[ recordingPath; snippetsDirectory; firstSnippet ]}.

(** A file system on which the recording cannot be unlinked. *)
Definition locked : FsHost :=
  {| unlinkError := fun _ filePath =>
       if String.eqb filePath recordingPath
       then Some "EPERM: operation not permitted" else None;
     readdirSync := fun _ _ => Resolved ["speaker_1_sample.wav"];
     rmdirError := fun _ _ => None;
     dirname := fun _ => recordingsDirectory;
     join := AudioRecordingService.pathJoin |}.

(** The bridge of the budget scenario, with the file service behind
    [files.deleteAudio]. *)
Definition lockedBridge : ProcessingWorkflow.ElectronAPI :=
  {| ProcessingWorkflow.processAudio :=
       ProcessingWorkflow.processAudio (bridge budgetTranscript deletionOk);
     ProcessingWorkflow.analyzeMeeting := fun _ _ => Resolved fixedAnalysis;
     ProcessingWorkflow.databaseSaveMeeting := fun draft => Resolved (persist draft);
     ProcessingWorkflow.deleteAudio := filesDeleteAudio locked recorded;
     ProcessingWorkflow.analysisDate := "2024-03-05T11:00:00.000Z";
     ProcessingWorkflow.savingDate := "2024-03-05T11:00:01.000Z" |}.

End FileScenario.

(* ===================================================================== *)
(** ** SettingsService: the settings and their file                      *)
(* ===================================================================== *)

Module SettingsService.
Import JS.

Inductive Provider := OpenAI | Anthropic.

(** [apiKeys: { openai?: string; anthropic?: string }] *)
Record ApiKeys := { openai : option string; anthropic : option string }.

Record AppSettings := {
  audioQuality : string;
  autoDeleteRecordings : bool;
  defaultLanguage : string;
  transcriptionModel : string;
  anthropicModel : string;
  apiKeys : ApiKeys;
  storageLocation : string
}.

(** [Partial<AppSettings>]: the properties that are present. *)
Record Updates := {
  u_audioQuality : option string;
  u_autoDeleteRecordings : option bool;
  u_defaultLanguage : option string;
  u_transcriptionModel : option string;
  u_anthropicModel : option string;
  u_apiKeys : option ApiKeys;
  u_storageLocation : option string
}.

(** [{ ...base, ...updates }]: a property that is present replaces the
    one of [base], whole. *)
Definition spread (base : AppSettings) (updates : Updates) : AppSettings :=
  {| audioQuality := default (audioQuality base) (u_audioQuality updates);
     autoDeleteRecordings :=
       default (autoDeleteRecordings base) (u_autoDeleteRecordings updates);
     defaultLanguage := default (defaultLanguage base) (u_defaultLanguage updates);
     transcriptionModel := default (transcriptionModel base) (u_transcriptionModel updates);
     anthropicModel := default (anthropicModel base) (u_anthropicModel updates);
     apiKeys := default (apiKeys base) (u_apiKeys updates);
     storageLocation := default (storageLocation base) (u_storageLocation updates) |}.

(** The file system and [os] as the service meets them: the home
    directory, the [path] functions, which paths exist, whether [mkdirSync]
    and [writeFileSync] throw (and with which message), and what reading
    and parsing the settings file gives. *)
Record FsHost := {
  homedir : string;
  join : string -> string -> string;
  dirname : string -> string;
  existsSync : string -> bool;
  mkdirError : string -> option string;
  writeError : string -> option string;
  readSettings : string -> Outcome Updates
}.

Inductive Effect :=
| Mkdir (dir : string)
| WriteFile (filePath : string) (content : AppSettings)
| ConsoleError (message : string).

Record Service := {
  settingsPath : string;
  settings : AppSettings
}.

Definition getDefaultSettings (h : FsHost) : AppSettings :=
  {| audioQuality := "medium";
     autoDeleteRecordings := true;
     defaultLanguage := "auto";
     transcriptionModel := "gpt-4o-mini-transcribe";
     anthropicModel := "claude-3-5-haiku-latest";
     apiKeys := {| openai := None; anthropic := None |};
     storageLocation := join h (homedir h) "MeetingIntelligence" |}.

Definition saveSettings (h : FsHost) (s : Service) : Outcome unit * list Effect :=
  let failed message := (Rejected message, [ConsoleError "Failed to save settings:"]) in
  let settingsDir := dirname h (settingsPath s) in
  let write :=
    match writeError h (settingsPath s) with
    | Some message =>
        let '(o, fx) := failed message in (o, WriteFile (settingsPath s) (settings s) :: fx)
    | None => (Resolved tt, [WriteFile (settingsPath s) (settings s)])
    end in
  if negb (existsSync h settingsDir) then
    match mkdirError h settingsDir with
    | Some message => let '(o, fx) := failed message in (o, Mkdir settingsDir :: fx)
    | None => let '(o, fx) := write in (o, Mkdir settingsDir :: fx)
    end
  else write.

(** The constructor: the defaults, then [loadSettings].  The promise of
    the [saveSettings] that creates the file is not awaited. *)
Definition construct (h : FsHost) : Service * list Effect :=
  let path := join h (join h (homedir h) "MeetingIntelligence") "settings.json" in
  let fresh := {| settingsPath := path; settings := getDefaultSettings h |} in
  if existsSync h path then
    match readSettings h path with
    | Resolved loadedSettings =>
        ({| settingsPath := path;
            settings := spread (getDefaultSettings h) loadedSettings |}, [])
    | Rejected _ => (fresh, [ConsoleError "Failed to load settings:"])
    end
  else (fresh, snd (saveSettings h fresh)).

Definition getSettings (s : Service) : AppSettings := settings s.

Definition withSettings (s : Service) (settings : AppSettings) : Service :=
  {| settingsPath := settingsPath s; settings := settings |}.

Definition updateSettings (h : FsHost) (s : Service) (updates : Updates)
    : Outcome AppSettings * Service * list Effect :=
  let s1 := withSettings s (spread (settings s) updates) in
  match saveSettings h s1 with
  | (Resolved _, fx) => (Resolved (getSettings s1), s1, fx)
  | (Rejected message, fx) => (Rejected message, s1, fx)
  end.

Definition setKey (keys : ApiKeys) (provider : Provider) (apiKey : option string)
    : ApiKeys :=
  match provider with
  | OpenAI => {| openai := apiKey; anthropic := anthropic keys |}
  | Anthropic => {| openai := openai keys; anthropic := apiKey |}
  end.

Definition withKeys (s : Service) (keys : ApiKeys) : Service :=
  withSettings s
    {| audioQuality := audioQuality (settings s);
       autoDeleteRecordings := autoDeleteRecordings (settings s);
       defaultLanguage := defaultLanguage (settings s);
       transcriptionModel := transcriptionModel (settings s);
       anthropicModel := anthropicModel (settings s);
       apiKeys := keys;
       storageLocation := storageLocation (settings s) |}.

Definition setApiKey (h : FsHost) (s : Service) (provider : Provider) (apiKey : string)
    : Outcome unit * Service * list Effect :=
  let s1 := withKeys s (setKey (apiKeys (settings s)) provider (Some apiKey)) in
  (fst (saveSettings h s1), s1, snd (saveSettings h s1)).

Definition getApiKey (s : Service) (provider : Provider) : option string :=
  match provider with
  | OpenAI => openai (apiKeys (settings s))
  | Anthropic => anthropic (apiKeys (settings s))
  end.

Definition clearApiKey (h : FsHost) (s : Service) (provider : Provider)
    : Outcome unit * Service * list Effect :=
  let s1 := withKeys s (setKey (apiKeys (settings s)) provider None) in
  (fst (saveSettings h s1), s1, snd (saveSettings h s1)).

Definition getStorageLocation (s : Service) : string := storageLocation (settings s).

Definition withLocation (s : Service) (location : string) : Service :=
  withSettings s
    {| audioQuality := audioQuality (settings s);
       autoDeleteRecordings := autoDeleteRecordings (settings s);
       defaultLanguage := defaultLanguage (settings s);
       transcriptionModel := transcriptionModel (settings s);
       anthropicModel := anthropicModel (settings s);
       apiKeys := apiKeys (settings s);
       storageLocation := location |}.

Definition setStorageLocation (h : FsHost) (s : Service) (location : string)
    : Outcome unit * Service * list Effect :=
  let wrapped message :=
    Rejected ("Cannot set storage location to " +:+ location +:+ ": " +:+ message) in
  let assign :=
    let s1 := withLocation s location in
    match saveSettings h s1 with
    | (Resolved _, fx) => (Resolved tt, s1, fx)
    | (Rejected message, fx) => (wrapped message, s1, fx)
    end in
  if negb (existsSync h location) then
    match mkdirError h location with
    | Some message => (wrapped message, s, [Mkdir location])
    | None => let '(o, s1, fx) := assign in (o, s1, Mkdir location :: fx)
    end
  else assign.

(** The other provider. *)
Definition other (provider : Provider) : Provider :=
  match provider with OpenAI => Anthropic | Anthropic => OpenAI end.

(** The settings apart from the keys. *)
Definition sameButKeys (a b : AppSettings) : Prop :=
  audioQuality a = audioQuality b
  /\ autoDeleteRecordings a = autoDeleteRecordings b
  /\ defaultLanguage a = defaultLanguage b
  /\ transcriptionModel a = transcriptionModel b
  /\ anthropicModel a = anthropicModel b
  /\ storageLocation a = storageLocation b.

(** What [JSON.parse] gives back for settings written by [JSON.stringify]:
    every setting is present. *)
Definition parsed (written : AppSettings) : Updates :=
  {| u_audioQuality := Some (audioQuality written);
     u_autoDeleteRecordings := Some (autoDeleteRecordings written);
     u_defaultLanguage := Some (defaultLanguage written);
     u_transcriptionModel := Some (transcriptionModel written);
     u_anthropicModel := Some (anthropicModel written);
     u_apiKeys := Some (apiKeys written);
     u_storageLocation := Some (storageLocation written) |}.

End SettingsService.

(* ===================================================================== *)
(** ** RecordingPage: the duration on screen                             *)
(* ===================================================================== *)

Module RecordingPage.
Import JS.

(** [s.padStart(2, '0')] *)
Definition padStart2 (s : string) : string :=
  match String.length s with
  | 0 => "00"
  | 1 => "0" +:+ s
  | _ => s
  end.

(** The duration of a status is a whole number of seconds; it is not
    negative when the clock has not gone back. *)
Definition formatDuration (seconds : nat) : string :=
  let hours := (seconds / 3600)%nat in
  let minutes := ((seconds mod 3600) / 60)%nat in
  let secs := (seconds mod 60)%nat in
  if (0 <? hours)%nat then
    padStart2 (showNat hours) +:+ ":" +:+ padStart2 (showNat minutes) +:+ ":"
      +:+ padStart2 (showNat secs)
  else padStart2 (showNat minutes) +:+ ":" +:+ padStart2 (showNat secs).

(** The fields of a formatted duration. *)
Definition fields (seconds : nat) : list nat :=
  let hours := (seconds / 3600)%nat in
  let minutes := ((seconds mod 3600) / 60)%nat in
  let secs := (seconds mod 60)%nat in
  if (0 <? hours)%nat then [hours; minutes; secs] else [minutes; secs].

Definition isDigit (c : ascii) : bool :=
  match c with
  | "0" | "1" | "2" | "3" | "4" | "5" | "6" | "7" | "8" | "9" => true
  | _ => false
  end%char.

Fixpoint allDigits (s : string) : bool :=
  match s with
  | EmptyString => true
  | String c r => isDigit c && allDigits r
  end.

(** Reading a decimal numeral back. *)
Definition readNat (s : string) : option nat :=
  match NilEmpty.uint_of_string s with
  | Some d => Some (Nat.of_uint d)
  | None => None
  end.

End RecordingPage.

(* ===================================================================== *)
(** ** Concrete inputs of the settings service                           *)
(* ===================================================================== *)

Module SettingsScenario.
Import JS SettingsService.

(** Settings with the language changed and one key stored. *)
Definition norwegian : AppSettings :=
  {| audioQuality := "high";
     autoDeleteRecordings := false;
     defaultLanguage := "no";
     transcriptionModel := "whisper-1";
     anthropicModel := "claude-3-5-haiku-latest";
     apiKeys := {| openai := Some "sk-test"; anthropic := None |};
     storageLocation := "/home/ada/Meetings" |}.

(** A home directory whose settings file holds [written]. *)
Definition home (written : AppSettings) : FsHost :=
  {| homedir := "/home/ada";
     join := AudioRecordingService.pathJoin;
     dirname := fun _ => "/home/ada/MeetingIntelligence";
     existsSync := fun _ => true;
     mkdirError := fun _ => None;
     writeError := fun _ => None;
     readSettings := fun _ => Resolved (parsed written) |}.

End SettingsScenario.

(* ===================================================================== *)
(** * Properties of the speaker estimator                                *)
(* ===================================================================== *)

Section Estimator.
Import JS TranscriptionService.

Lemma split_cons (sep : ascii -> bool) (s : string) :
  exists piece pieces, split sep s = piece :: pieces.
Proof.
  induction s as [|c r IH]; cbn [split]; [by eexists _, _|].
  destruct IH as (p & ps & IH). destruct (sep c).
  - destruct r as [|c' r']; [by eexists _, _|].
    destruct (sep c'); [rewrite IH|]; by eexists _, _.
  - rewrite IH. by eexists _, _.
Qed.

(** Splitting never yields the empty array: there is at least one word. *)
Lemma totalWords_pos (transcript : string) : (1 <= totalWords transcript)%nat.
Proof.
  unfold totalWords, words.
  destruct (split_cons isWhiteSpace (toLowerCase transcript)) as (p & ps & ->).
  cbn. lia.
Qed.

Lemma gt_true (x y : Q) : gt x y = true <-> (y < x)%Q.
Proof.
  unfold gt. rewrite negb_true_iff, <- not_true_iff_false, Qle_bool_iff.
  split; [apply Qnot_le_lt | apply Qlt_not_le].
Qed.


(** The floating-point tests are comparisons of integers: [a / b > p / q]
    is [p * b < q * a]. *)
Lemma ratio_gt (a b : nat) (p q : positive) :
  (0 < b)%nat ->
  gt (ratio a b) (Z.pos p # q) = true <-> (Z.pos p * Z.of_nat b < Z.pos q * Z.of_nat a)%Z.
Proof.
  intros Hb. rewrite gt_true. destruct b as [|b]; [lia|].
  unfold ratio, Qlt, Qdiv, Qmult, Qinv, inject_Z.
  replace (Z.of_nat (S b)) with (Z.pos (Pos.of_succ_nat b)) by lia.
  cbn. lia.
Qed.

(** The ratio test of a transcript, on its two counts. *)
Lemma ratioEstimate_counts (transcript : string) :
  ratioEstimate transcript =
    if (15 * Z.of_nat (totalWords transcript)
          <? 100 * Z.of_nat (indicatorCount transcript))%Z then 3%nat
    else if (8 * Z.of_nat (totalWords transcript)
               <? 100 * Z.of_nat (indicatorCount transcript))%Z then 2%nat
    else 1%nat.
Proof.
  pose proof (totalWords_pos transcript) as Hpos.
  unfold ratioEstimate, indicatorRatio.
  pose proof (ratio_gt (indicatorCount transcript) (totalWords transcript) 15 100 Hpos) as H15.
  pose proof (ratio_gt (indicatorCount transcript) (totalWords transcript) 8 100 Hpos) as H8.
  change (Z.pos 15 # 100) with 0.15%Q in H15. change (Z.pos 8 # 100) with 0.08%Q in H8.
  destruct (gt _ 0.15), (gt _ 0.08);
    repeat match goal with
           | |- context [(?x <? ?y)%Z] => destruct (Z.ltb_spec x y)
           end;
    try reflexivity; intuition (discriminate || lia).
Qed.

Lemma ratioEstimate_range (transcript : string) :
  (1 <= ratioEstimate transcript <= 3)%nat.
Proof.
  unfold ratioEstimate. repeat case_match; lia.
Qed.

Lemma numSpeakers_range (transcript : string) :
  (1 <= numSpeakers transcript <= 4)%nat.
Proof.
  unfold numSpeakers. pose proof (ratioEstimate_range transcript).
  repeat case_match; lia.
Qed.

Lemma simulateSpeakerDiarization_length h random transcript audioFilePath :
  length (simulateSpeakerDiarization h random transcript audioFilePath)
  = numSpeakers transcript.
Proof.
  unfold simulateSpeakerDiarization. by rewrite length_map, length_seq.
Qed.

End Estimator.

Section EstimatorClaims.
Import JS TranscriptionService Scenario.

Lemma numSpeakers_short (transcript : string) :
  (totalWords transcript <= 100)%nat -> numSpeakers transcript = 1%nat.
Proof.
  intros H. unfold numSpeakers.
  by replace (100 <? totalWords transcript)%nat with false
    by (symmetry; apply Nat.ltb_ge; exact H).
Qed.

Lemma numSpeakers_long (transcript : string) :
  (100 < totalWords transcript)%nat ->
  numSpeakers transcript =
    if looksLikeDialogue transcript
    then Nat.max (ratioEstimate transcript) 2
    else ratioEstimate transcript.
Proof.
  intros H. unfold numSpeakers.
  replace (100 <? totalWords transcript)%nat with true
    by (symmetry; apply Nat.ltb_lt; exact H).
  pose proof (ratioEstimate_range transcript).
  case_match; lia.
Qed.



(** The words are the pieces of the split: the empty transcript has one,
    and a blank at either end of a transcript adds an empty one. *)
Example words_are_the_pieces_of_the_split :
  totalWords "" = 1%nat /\ totalWords "we agree" = 2%nat /\ totalWords " we agree " = 4%nat.
Proof. by vm_compute. Qed.

(** A ratio of exactly 0.15 is not above the threshold. *)
Example borderline_is_two :
  indicatorCount borderline = 18%nat /\ totalWords borderline = 120%nat
  /\ ratioEstimate borderline = 2%nat.
Proof. by vm_compute. Qed.

(** C5 fails on the code, by a slip.  Eight sentences of 14 words, each
    closed by a full stop and followed by one blank, make a transcript of
    112 words.  As the claim reads them, trimmed, the eight sentences have
    14 words each: all are short, more than 60% of more than 5, and the
    estimate should be at least 2.  The code keeps a piece by the length of
    its trimmed text but then counts the words of the piece as it was cut:
    the first sentence has its 14 words, each later one, identical to it,
    has 15 because of the blank that followed the full stop.  One sentence
    of eight is short and the estimate stays 1. *)
Lemma C5_fourteen_word_sentences_are_not_short :
  (100 < totalWords longer)%nat
  /\ (5 < length (SpecWording.trimmedSentences longer))%nat
  /\ List.map (fun s => length (split isWhiteSpace s)) (SpecWording.trimmedSentences longer)
     = [14; 14; 14; 14; 14; 14; 14; 14]%nat
  /\ (0.6 < ratio (SpecWording.shortTrimmedSentences longer)
                  (length (SpecWording.trimmedSentences longer)))%Q
  /\ List.map trim (sentences longer) = replicate 8 fourteen
  /\ List.map (fun s => length (split isWhiteSpace s)) (sentences longer)
     = [14; 15; 15; 15; 15; 15; 15; 15]%nat
  /\ shortSentences longer = 1%nat
  /\ numSpeakers longer = 1%nat
  /\ ~ (2 <= numSpeakers longer)%nat.
Proof.
  split; [vm_compute; lia|]. split; [vm_compute; lia|]. split; [by vm_compute|].
  split; [by vm_compute|]. split; [by vm_compute|]. split; [by vm_compute|].
  split; [by vm_compute|]. split; [by vm_compute|]. vm_compute. lia.
Qed.

(** What the dialogue test does on the pieces as the code counts them.  For
    a transcript of more than 100 whitespace tokens, cut at the runs of '.',
    '!' and '?' and keeping the pieces whose trimmed length exceeds 10
    characters: when more than 5 pieces are kept and more than 60% of them
    split at runs of whitespace into fewer than 15 parts, the estimate is
    the larger of 2 and the ratio estimate.  For every transcript the final
    estimate lies between 1 and 4. *)
Lemma dialogue_raises_the_estimate (transcript : string) :
  (1 <= numSpeakers transcript <= 4)%nat
  /\ sentences transcript
       = List.filter (fun s => (10 <? String.length (trim s))%nat)
                     (split isSentenceEnd transcript)
  /\ shortSentences transcript
     = length (List.filter (fun s => (length (split isWhiteSpace s) <? 15)%nat)
                           (sentences transcript))
  /\ ((100 < totalWords transcript)%nat ->
      (5 < length (sentences transcript))%nat ->
      (0.6 < ratio (shortSentences transcript) (length (sentences transcript)))%Q ->
      (2 <= numSpeakers transcript)%nat
      /\ numSpeakers transcript = Nat.max (ratioEstimate transcript) 2).
Proof.
  split; [apply numSpeakers_range|]. split; [reflexivity|]. split; [reflexivity|].
  intros Hw Hs Hr.
  assert (Hd : looksLikeDialogue transcript = true).
  { unfold looksLikeDialogue. apply andb_true_iff. split.
    - by apply Nat.ltb_lt.
    - by apply gt_true. }
  rewrite (numSpeakers_long _ Hw), Hd. lia.
Qed.

(** Eight sentences of 13 words, none conversational: the ratio estimate is
    1 and the dialogue test raises it to 2. *)
Example thirteen_word_sentences_are_short :
  (100 < totalWords dialogue)%nat
  /\ (5 < length (sentences dialogue))%nat
  /\ (0.6 < ratio (shortSentences dialogue) (length (sentences dialogue)))%Q
  /\ ratioEstimate dialogue = 1%nat
  /\ numSpeakers dialogue = 2%nat.
Proof.
  split; [vm_compute; lia|]. split; [vm_compute; lia|]. split; [by vm_compute|].
  by vm_compute.
Qed.

(** The words of a kept sentence are counted on the piece as it was cut:
    a piece that follows a delimiter starts with the blank that followed
    it, and the split counts an empty word before that blank.  Eight
    sentences of 14 plain words are therefore not short, but for the
    first. *)
Example words_of_a_sentence_count_its_leading_blank :
  List.map (fun s => length (split isWhiteSpace s)) (sentences longer)
    = [14; 15; 15; 15; 15; 15; 15; 15]%nat
  /\ shortSentences longer = 1%nat
  /\ numSpeakers longer = 1%nat.
Proof. by vm_compute. Qed.

(** C10. Whatever the transcript, the empty one included, the estimator
    returns between one and four speakers: never an empty list. *)
Theorem C10_estimator_never_returns_zero_speakers
    (h : SnippetHost) (random : nat -> Q) (transcript : string)
    (audioFilePath : option string) :
  simulateSpeakerDiarization h random transcript audioFilePath <> []
  /\ (1 <= length (simulateSpeakerDiarization h random transcript audioFilePath) <= 4)%nat
  /\ length (simulateSpeakerDiarization h random "" audioFilePath) = 1%nat.
Proof.
  pose proof (numSpeakers_range transcript) as Hn.
  rewrite <- (simulateSpeakerDiarization_length h random transcript audioFilePath) in Hn.
  split; [|split; [exact Hn|]].
  - intros E. rewrite E in Hn. cbn in Hn. lia.
  - by rewrite simulateSpeakerDiarization_length.
Qed.

(** A transcription that resolves reports at least one speaker. *)
Lemma transcribeAudio_speakers (h : Host) (audioFilePath : string)
    (result : TranscriptionResult) :
  transcribeAudio h audioFilePath = Resolved result ->
  (1 <= length (tr_speakers result) <= 4)%nat.
Proof.
  unfold transcribeAudio. repeat case_match; try discriminate.
  intros [= <-]. cbn [tr_speakers].
  rewrite simulateSpeakerDiarization_length. apply numSpeakers_range.
Qed.

End EstimatorClaims.

(* ===================================================================== *)
(** * Properties of the recording session controller                     *)
(* ===================================================================== *)

Section Controller.
Import JS AudioRecordingService.

Lemma timeWarnings_app (fx1 fx2 : list Effect) :
  timeWarnings (fx1 ++ fx2) = timeWarnings fx1 ++ timeWarnings fx2.
Proof. apply flat_map_app. Qed.

Lemma warningsAt_cases (d : Z) :
  warningsAt d =
    if (d =? 4200)%Z then [(LevelWarning, 4200%Z)]
    else if (d =? 5400)%Z then [(LevelCritical, 5400%Z)]
    else [].
Proof.
  unfold warningsAt, timeWarningAt.
  change (70 * 60)%Z with 4200%Z. change (90 * 60)%Z with 5400%Z.
  destruct (Z.eqb_spec d 4200) as [->|]; [reflexivity|].
  destruct (Z.eqb_spec d 5400) as [->|]; reflexivity.
Qed.

(** A tick of a running session leaves the controller as it is and warns
    according to the elapsed second alone. *)
Lemma statusTick_recording (now : Z) (rnd : Q) (c : Controller) (start : Z) :
  isRecording c = true -> startTime c = Some start ->
  fst (statusTick now rnd c) = c
  /\ timeWarnings (snd (statusTick now rnd c)) = warningsAt (elapsed start now).
Proof.
  intros Hrec Hstart. unfold statusTick, getRecordingStatus.
  rewrite Hrec, Hstart. cbn [negb fst snd rs_duration].
  split; [reflexivity|].
  rewrite timeWarnings_app. cbn. by rewrite app_nil_r.
Qed.

Lemma runTicks_recording (ticks : list (Z * Q)) (c : Controller) (start : Z) :
  isRecording c = true -> startTime c = Some start ->
  fst (runTicks ticks c) = c
  /\ timeWarnings (snd (runTicks ticks c))
     = flat_map warningsAt (List.map (fun tick => elapsed start (fst tick)) ticks).
Proof.
  intros Hrec Hstart. induction ticks as [|[now rnd] rest [IHc IHw]]; [done|].
  cbn [runTicks List.map flat_map fst].
  destruct (statusTick_recording now rnd c start Hrec Hstart) as [Hc Hw].
  destruct (statusTick now rnd c) as [c1 fx1]. cbn [fst snd] in Hc, Hw. subst c1.
  destruct (runTicks rest c) as [c2 fx2]. cbn [fst snd] in *.
  split; [exact IHc|]. by rewrite timeWarnings_app, Hw, IHw.
Qed.

(** Seconds 1 to [n], each met once, cross 70 minutes once if [n] reaches
    4200 and 90 minutes once if it reaches 5400. *)
Lemma warnings_up_to (n : nat) :
  flat_map warningsAt (List.map Z.of_nat (seq 1 n))
  = (if (4200 <=? Z.of_nat n)%Z then [(LevelWarning, 4200%Z)] else [])
    ++ (if (5400 <=? Z.of_nat n)%Z then [(LevelCritical, 5400%Z)] else []).
Proof.
  induction n as [|n IH]; [reflexivity|].
  rewrite seq_S, List.map_app, flat_map_app, IH. cbn [List.map flat_map].
  rewrite app_nil_r, warningsAt_cases.
  destruct (Z.eqb_spec (Z.of_nat (1 + n)) 4200);
    destruct (Z.eqb_spec (Z.of_nat (1 + n)) 5400);
    destruct (Z.leb_spec 4200 (Z.of_nat n));
    destruct (Z.leb_spec 5400 (Z.of_nat n));
    destruct (Z.leb_spec 4200 (Z.of_nat (S n)));
    destruct (Z.leb_spec 5400 (Z.of_nat (S n)));
    try lia; reflexivity.
Qed.

Lemma startRecording_guard (h : StartHost) (c : Controller) :
  isRecording c = true -> startRecording h c = (StartFailed alreadyRecording, c, []).
Proof. intros H. unfold startRecording. by rewrite H. Qed.

Lemma stopRecording_guard (h : StopHost) (c : Controller) :
  isRecording c = false -> stopRecording h c = (StopFailed notRecording, c, []).
Proof. intros H. unfold stopRecording. by rewrite H. Qed.

(** A start that succeeds leaves a running session whose clock starts at
    the host's reading, and warns of nothing. *)
Lemma startRecording_ok (h : StartHost) (c c' : Controller) (fileName : string)
    (fx : list Effect) :
  startRecording h c = (StartOk fileName, c', fx) ->
  isRecording c = false /\ isRecording c' = true
  /\ startTime c' = Some (startNow h) /\ timeWarnings fx = [].
Proof.
  unfold startRecording, startStatusUpdates.
  destruct (isRecording c); [discriminate|].
  destruct (findRecordProgram h); [|discriminate].
  destruct (recorderThrows h); [discriminate|].
  intros [= _ <- <-]. cbn. repeat split.
  rewrite !timeWarnings_app. by destruct (statusInterval c).
Qed.

Lemma stopRecording_ok (h : StopHost) (c c' : Controller) audioFilePath duration
    (fx : list Effect) :
  stopRecording h c = (StopOk audioFilePath duration, c', fx) ->
  isRecording c' = false.
Proof.
  unfold stopRecording. repeat case_match; try discriminate; by intros [= _ _ <- _].
Qed.

Lemma stopRecording_no_warning (h : StopHost) (c : Controller) :
  timeWarnings (snd (stopRecording h c)) = [].
Proof.
  unfold stopRecording. repeat case_match; cbn [snd]; try reflexivity;
    rewrite ?timeWarnings_app; reflexivity.
Qed.

End Controller.

Section ControllerClaims.
Import JS AudioRecordingService Scenario.

Lemma startRecording_succeeds (h : StartHost) (c : Controller) :
  isRecording c = false -> findRecordProgram h <> None -> recorderThrows h = None ->
  exists fileName c' fx, startRecording h c = (StartOk fileName, c', fx).
Proof.
  intros Hrec Hprog Hthrow. unfold startRecording. rewrite Hrec, Hthrow.
  destruct (findRecordProgram h); [|done].
  destruct (startStatusUpdates _ _). by eexists _, _, _.
Qed.

(** Once the session is over the interval callback stays silent. *)
Lemma runTicks_idle (ticks : list (Z * Q)) (c : Controller) :
  isRecording c = false -> timeWarnings (snd (runTicks ticks c)) = [].
Proof.
  revert c. induction ticks as [|[now rnd] rest IH]; intros c Hrec; [done|].
  cbn [runTicks]. unfold statusTick. rewrite Hrec. cbn [negb].
  destruct (statusInterval c).
  - match goal with |- context [runTicks rest ?c1] => specialize (IH c1 eq_refl) end.
    destruct (runTicks rest _). cbn [snd] in *. by rewrite timeWarnings_app, IH.
  - specialize (IH c Hrec). destruct (runTicks rest c). cbn [snd] in *.
    by rewrite timeWarnings_app, IH.
Qed.

(** C1. In a recording session whose clock visits each elapsed second
    once, the periodic emitter emits the Warning time warning exactly once,
    at second 4200, so none at 4199 or 4201, and the Critical one exactly
    once, at second 5400; neither is emitted twice, and none is emitted
    once the session has been stopped. *)
Theorem C1_time_warnings_once_per_threshold
    (hs : StartHost) (hp : StopHost) (c : Controller)
    (ticks : list (Z * Q)) (n : nat) :
  isRecording c = false ->
  findRecordProgram hs <> None ->
  recorderThrows hs = None ->
  visitsEachSecond (startNow hs) ticks n ->
  let running := snd (fst (startRecording hs c)) in
  let fx := snd (recordingSession hs ticks hp c) in
  timeWarnings fx
    = (if (4200 <=? Z.of_nat n)%Z then [(LevelWarning, 4200%Z)] else [])
      ++ (if (5400 <=? Z.of_nat n)%Z then [(LevelCritical, 5400%Z)] else [])
  /\ countLevel LevelWarning fx = (if (4200 <=? Z.of_nat n)%Z then 1 else 0)%nat
  /\ countLevel LevelCritical fx = (if (5400 <=? Z.of_nat n)%Z then 1 else 0)%nat
  /\ (forall now rnd,
        timeWarnings (snd (statusTick now rnd running))
        = if (elapsed (startNow hs) now =? 4200)%Z then [(LevelWarning, 4200%Z)]
          else if (elapsed (startNow hs) now =? 5400)%Z then [(LevelCritical, 5400%Z)]
          else [])
  /\ (forall more,
        isRecording (fst (recordingSession hs ticks hp c)) = false ->
        timeWarnings (snd (runTicks more (fst (recordingSession hs ticks hp c)))) = []).
Proof.
  intros Hidle Hprog Hthrow Hclock running fx.
  destruct (startRecording_succeeds hs c Hidle Hprog Hthrow) as (f & c1 & fx1 & Hstart).
  destruct (startRecording_ok _ _ _ _ _ Hstart) as (_ & Hrec & Htime & Hw1).
  destruct (runTicks_recording ticks c1 _ Hrec Htime) as [Hc2 Hw2].
  pose proof (stopRecording_no_warning hp c1) as Hw3.
  assert (Hfx : timeWarnings fx
    = (if (4200 <=? Z.of_nat n)%Z then [(LevelWarning, 4200%Z)] else [])
      ++ (if (5400 <=? Z.of_nat n)%Z then [(LevelCritical, 5400%Z)] else [])).
  { subst fx. unfold recordingSession. rewrite Hstart.
    destruct (runTicks ticks c1) as [c2 fx2]. cbn [fst snd] in Hc2, Hw2. subst c2.
    destruct (stopRecording hp c1) as [[r3 c3] fx3]. cbn [snd] in *.
    rewrite !timeWarnings_app, Hw1, Hw2, Hw3, app_nil_r. cbn [app].
    rewrite Hclock. apply warnings_up_to. }
  split; [exact Hfx|].
  unfold countLevel. rewrite Hfx.
  split; [by repeat case_match|]. split; [by repeat case_match|]. split.
  - intros now rnd. subst running. rewrite Hstart. cbn [fst snd].
    rewrite (proj2 (statusTick_recording now rnd c1 _ Hrec Htime)).
    apply warningsAt_cases.
  - intros more Hover. by apply runTicks_idle.
Qed.

(** A session of 90 minutes under a clock that fires 17 ms late every
    second: one warning of each level. *)
Lemma C1_witness :
  isRecording idle = false
  /\ findRecordProgram morning <> None
  /\ recorderThrows morning = None
  /\ visitsEachSecond (startNow morning) (lateClock (54 * 100)) (54 * 100)
  /\ timeWarnings (snd (recordingSession morning (lateClock (54 * 100)) noon idle))
     = [(LevelWarning, 4200%Z); (LevelCritical, 5400%Z)]
  /\ countLevel LevelWarning
       (snd (recordingSession morning (lateClock (54 * 100)) noon idle)) = 1%nat
  /\ countLevel LevelCritical
       (snd (recordingSession morning (lateClock (54 * 100)) noon idle)) = 1%nat.
Proof.
  assert (H1 : isRecording idle = false) by reflexivity.
  assert (H2 : findRecordProgram morning <> None) by (vm_compute; discriminate).
  assert (H3 : recorderThrows morning = None) by reflexivity.
  assert (H4 : visitsEachSecond (startNow morning) (lateClock (54 * 100)) (54 * 100))
    by (vm_compute; reflexivity).
  pose proof (C1_time_warnings_once_per_threshold morning noon idle
                (lateClock (54 * 100)) (54 * 100) H1 H2 H3 H4) as (Hw & Hcw & Hcc & _).
  exact (conj H1 (conj H2 (conj H3 (conj H4 (conj Hw (conj Hcw Hcc)))))).
Defined.

(** C6. While a session is recording, another start returns the
    already-recording error and does nothing else: no effect on the host
    (no file, no recorder, no timer, no event) and the controller, with
    the first session's file, is as it was. *)
Theorem C6_start_while_recording_fails_fast (h : StartHost) (c : Controller) :
  isRecording c = true ->
  startRecording h c = (StartFailed alreadyRecording, c, [])
  /\ alreadyRecording = "Recording already in progress".
Proof. intros H. split; [by apply startRecording_guard | reflexivity]. Qed.

(** A second start, a minute into the first session. *)
Lemma C6_witness :
  isRecording busy = true
  /\ currentFileName busy = Some "meeting_2024-03-05T09-30-00.wav"
  /\ startRecording later busy = (StartFailed alreadyRecording, busy, []).
Proof.
  assert (H : isRecording busy = true) by reflexivity.
  exact (conj H (conj eq_refl (proj1 (C6_start_while_recording_fails_fast later busy H)))).
Defined.

(** A start right after a start that succeeded is refused. *)
Lemma start_twice (h1 h2 : StartHost) (c c1 : Controller) fileName fx :
  startRecording h1 c = (StartOk fileName, c1, fx) ->
  startRecording h2 c1 = (StartFailed alreadyRecording, c1, []).
Proof.
  intros H. apply startRecording_guard. by apply startRecording_ok in H as (_ & ? & _).
Qed.

(** C7. A stop with no active session returns the not-recording error,
    without any effect and without touching the controller; and after a
    stop that succeeded, the next stop is such a stop. *)
Theorem C7_stop_when_idle_and_stop_twice (h : StopHost) (c : Controller) :
  (isRecording c = false ->
     stopRecording h c = (StopFailed notRecording, c, []))
  /\ (forall h0 c0 audioFilePath duration fx,
        stopRecording h0 c0 = (StopOk audioFilePath duration, c, fx) ->
        stopRecording h c = (StopFailed notRecording, c, []))
  /\ notRecording = "No recording in progress".
Proof.
  split; [apply stopRecording_guard|]. split; [|reflexivity].
  intros h0 c0 p d fx H. apply stopRecording_guard. by apply stopRecording_ok in H.
Qed.

(** A stop of the idle controller, and two stops of a running one. *)
Lemma C7_witness :
  (isRecording idle = false
   /\ stopRecording noon idle = (StopFailed notRecording, idle, []))
  /\ (fst (fst (stopRecording noon busy))
        = StopOk (Some "/home/ada/MeetingIntelligence/recordings/meeting_2024-03-05T09-30-00.wav")
                 5400
      /\ stopRecording noon (snd (fst (stopRecording noon busy)))
         = (StopFailed notRecording, snd (fst (stopRecording noon busy)), [])).
Proof.
  assert (H : isRecording idle = false) by reflexivity.
  refine (conj (conj H (proj1 (C7_stop_when_idle_and_stop_twice noon idle) H))
               (conj eq_refl _)).
  refine (proj1 (proj2 (C7_stop_when_idle_and_stop_twice noon
                          (snd (fst (stopRecording noon busy)))))
            noon busy _ _ (snd (stopRecording noon busy)) _).
  reflexivity.
Defined.

End ControllerClaims.

(* ===================================================================== *)
(** * Properties of the processing workflow                              *)
(* ===================================================================== *)

Section Workflow.
Import JS ProcessingWorkflow.

Variable api : ElectronAPI.
Variable audioFilePath : string.

Lemma steps_app (fx1 fx2 : list Effect) : steps (fx1 ++ fx2) = steps fx1 ++ steps fx2.
Proof. apply flat_map_app. Qed.

Lemma run_app (st : State) (fx1 fx2 : list Effect) :
  run st (fx1 ++ fx2) = run (run st fx1) fx2.
Proof. apply foldl_app. Qed.

(** Saving never returns to an earlier step. *)
Lemma steps_saveMeeting (render : State) speakers analysis :
  steps (saveMeeting api audioFilePath render speakers analysis) = [StepSaving]
  \/ steps (saveMeeting api audioFilePath render speakers analysis)
     = [StepSaving; StepComplete].
Proof.
  unfold saveMeeting. cbn [app steps flat_map].
  destruct (transcriptionResult render) as [result|]; [|by left].
  cbn [steps flat_map app].
  destruct (databaseSaveMeeting api _); [|by left]. right.
  destruct (deleteRecording render); [|reflexivity].
  by destruct (deleteAudio api audioFilePath).
Qed.

(** Analysis opens with the analysis step and never shows the naming
    dialog. *)
Lemma steps_startAIAnalysis (render : State) speakers :
  exists rest,
    steps (startAIAnalysis api audioFilePath render speakers) = StepAIAnalysis :: rest
    /\ ~ In StepSpeakerIdentification rest.
Proof.
  unfold startAIAnalysis. rewrite steps_app.
  eexists. split; [reflexivity|].
  destruct (transcriptionResult render) as [result|]; [|intros []].
  change (steps (?e :: ?l)) with (steps [e] ++ steps l). cbn [steps flat_map app].
  change (flat_map _ ?l) with (steps l).
  destruct (analyzeMeeting api _ _) as [analysis|]; [|intros []].
  unfold steps at 1. cbn [flat_map app]. change (flat_map _ ?l) with (steps l).
  destruct (steps_saveMeeting render speakers analysis) as [-> | ->];
    cbn; intuition discriminate.
Qed.

(** Whatever the closure of [startTranscription] captured, a transcription
    without speakers goes straight to analysis. *)
Lemma startTranscription_no_speakers (render : State) (result : TranscriptionResult) :
  processAudio api audioFilePath = Resolved result ->
  tr_speakers result = [] ->
  reachesAnalyzingDirectly (startTranscription api audioFilePath render)
  /\ ~ In StepSpeakerIdentification (steps (startTranscription api audioFilePath render)).
Proof.
  intros Hres Hnone. unfold reachesAnalyzingDirectly, startTranscription.
  rewrite Hres, Hnone. cbn [length Nat.ltb Nat.leb].
  destruct (steps_startAIAnalysis render []) as (rest & Hsteps & Hrest).
  rewrite !steps_app, Hsteps. cbn [steps flat_map app].
  split; [by eexists|]. cbn. intuition discriminate.
Qed.

Lemma startTranscription_speakers (render : State) (result : TranscriptionResult) :
  processAudio api audioFilePath = Resolved result ->
  tr_speakers result <> [] ->
  startTranscription api audioFilePath render
  = [SetCurrentStep StepTranscription; SetProgress 10; CallProcessAudio audioFilePath;
     SetTranscriptionResult result; SetProgress 40;
     SetCurrentStep StepSpeakerIdentification].
Proof.
  intros Hres Hsome. unfold startTranscription. rewrite Hres.
  by destruct (tr_speakers result).
Qed.



End Workflow.

Section WorkflowClaims.
Import JS TranscriptionService SpeakerIdentification ProcessingWorkflow Scenario.



(** The zero-speaker branch runs in the closure of the first render, where
    no transcription result is visible yet: having reached the analysis
    step it reports a failure without calling the analysis. *)
Example no_speakers_analysis_sees_no_transcript :
  analysed (snd (mount silentBridge recordingPath)) = []
  /\ failures (snd (mount silentBridge recordingPath))
     = ["Failed to analyze meeting. Please check your API configuration."]
  /\ currentStep (workflow (fst (mount silentBridge recordingPath))) = StepAIAnalysis.
Proof. by vm_compute. Qed.

(** C9. When the record has been persisted and cleanup was requested, a
    failed deletion of the source audio (a rejection, or an answer that
    reports no success) is not propagated: the run reaches the complete
    step without any failure being set, the one persistence call is
    followed by no other, and the record the observer receives is the one
    the database returned. *)
Theorem C9_deletion_failure_is_not_propagated
    (api : ElectronAPI) (audioFilePath : string) (render st : State)
    (result : TranscriptionResult) (speakers : list Speaker)
    (analysis : AIAnalysisResult) (savedMeeting : Meeting) :
  transcriptionResult render = Some result ->
  deleteRecording render = true ->
  databaseSaveMeeting api (meetingDraft api audioFilePath render result speakers analysis)
    = Resolved savedMeeting ->
  deletionFailed (deleteAudio api audioFilePath) ->
  let fx := saveMeeting api audioFilePath render speakers analysis in
  steps fx = [StepSaving; StepComplete]
  /\ currentStep (run st fx) = StepComplete
  /\ error (run st fx) = error st
  /\ failures fx = []
  /\ saved fx = [meetingDraft api audioFilePath render result speakers analysis]
  /\ deleted fx = [audioFilePath]
  /\ completed fx = [savedMeeting].
Proof.
  intros Hres Hdel Hsave _ fx. subst fx. unfold saveMeeting.
  rewrite Hres, Hsave, Hdel.
  by destruct (deleteAudio api audioFilePath).
Qed.

(** The budget run with a deletion that the host denies. *)
Lemma C9_witness :
  let api := bridge budgetTranscript deletionDenied in
  let render := workflow (naming budgetTranscript) in
  let speakers := default [] (tr_speakers <$> transcriptionResult render) in
  deletionFailed (deleteAudio api recordingPath)
  /\ steps (saveMeeting api recordingPath render speakers fixedAnalysis)
     = [StepSaving; StepComplete]
  /\ failures (saveMeeting api recordingPath render speakers fixedAnalysis) = []
  /\ List.map md_participants (saved (saveMeeting api recordingPath render speakers fixedAnalysis))
     = [["Speaker 1"]].
Proof.
  intros api render speakers.
  assert (Hfail : deletionFailed (deleteAudio api recordingPath)) by exact I.
  pose proof (C9_deletion_failure_is_not_propagated api recordingPath render render
                (default {| tr_transcript := ""; tr_speakers := [];
                            tr_confidence := 0; tr_duration := 0 |}
                         (transcriptionResult render))
                speakers fixedAnalysis _ eq_refl eq_refl eq_refl Hfail)
    as (Hsteps & _ & _ & Hnone & Hsaved & _).
  refine (conj Hfail (conj Hsteps (conj Hnone _))).
  rewrite Hsaved. reflexivity.
Defined.

End WorkflowClaims.

Section BudgetRun.
Import JS TranscriptionService SpeakerIdentification ProcessingWorkflow Scenario.

(** C2 as stated fails on the run it describes: the nine-word transcript
    is estimated at one speaker, and a transcription with one speaker stops
    at the naming dialog; nothing has been analysed or persisted. *)
Lemma C2_stops_at_naming :
  totalWords budgetTranscript = 9%nat
  /\ numSpeakers budgetTranscript = 1%nat
  /\ ~ reachesAnalyzingDirectly
         (snd (mount (bridge budgetTranscript deletionOk) recordingPath))
  /\ currentStep (workflow (fst (mount (bridge budgetTranscript deletionOk) recordingPath)))
     = StepSpeakerIdentification
  /\ analysed (snd (mount (bridge budgetTranscript deletionOk) recordingPath)) = []
  /\ saved (snd (mount (bridge budgetTranscript deletionOk) recordingPath)) = [].
Proof.
  split; [by vm_compute|]. split; [by vm_compute|]. split; [|by vm_compute].
  intros [rest Hsteps]. vm_compute in Hsteps. discriminate Hsteps.
Qed.

Variable api : ElectronAPI.
Variable host : Host.
Variable audioFilePath : string.
Variable analysis : AIAnalysisResult.
Variable stored : MeetingDraft -> Meeting.

Hypothesis bridged : processAudio api audioFilePath = transcribeAudio host audioFilePath.
Hypothesis ready : openaiReady host = true.
Hypothesis present : fileExists host audioFilePath = true.
Hypothesis heard : transcribe host audioFilePath = Resolved budgetTranscript.
Hypothesis analysable : forall transcript metadata,
    analyzeMeeting api transcript metadata = Resolved analysis.
Hypothesis storable : forall draft, databaseSaveMeeting api draft = Resolved (stored draft).

Lemma budget_transcription :
  exists speaker,
    processAudio api audioFilePath
    = Resolved {| tr_transcript := budgetTranscript;
                  tr_speakers := [speaker];
                  tr_confidence := 0.9;
                  tr_duration := getAudioDuration host audioFilePath |}
    /\ sp_name speaker = "Speaker 1".
Proof.
  rewrite bridged. unfold transcribeAudio. rewrite ready, present, heard. cbn [negb].
  unfold simulateSpeakerDiarization.
  change (numSpeakers budgetTranscript) with 1%nat. cbn [seq List.map].
  eexists. split; reflexivity.
Qed.

(** C2, amended. On the nine-word transcript the speaker estimate is 1 and
    the run stops at the naming dialog with that one speaker; once Skip is
    invoked it goes through analysis and saving to the complete step, and
    the one record it persists has the participants ["Speaker 1"] and,
    cleanup being requested, no audio file path. *)
Theorem C2_budget_run_names_then_persists :
  let ui := fst (mount api audioFilePath) in
  let fx := snd (mount api audioFilePath) in
  let ui' := fst (act api audioFilePath ui ClickSkip) in
  let fx' := snd (act api audioFilePath ui ClickSkip) in
  numSpeakers budgetTranscript = 1%nat
  /\ steps fx = [StepTranscription; StepSpeakerIdentification]
  /\ currentStep (workflow ui) = StepSpeakerIdentification
  /\ (exists speaker, view (workflow ui) = NamingView [speaker])
  /\ analysed fx = [] /\ saved fx = []
  /\ deleteRecording (workflow ui) = true
  /\ steps fx' = [StepAIAnalysis; StepSaving; StepComplete]
  /\ currentStep (workflow ui') = StepComplete
  /\ (exists draft,
        saved fx' = [draft]
        /\ md_participants draft = ["Speaker 1"]
        /\ md_audioFilePath draft = None
        /\ md_transcript draft = budgetTranscript
        /\ completed fx' = [stored draft]).
Proof.
  intros ui fx ui' fx'.
  destruct budget_transcription as (speaker & Hres & Hname).
  set (result := {| tr_transcript := budgetTranscript; tr_speakers := [speaker];
                    tr_confidence := 0.9;
                    tr_duration := getAudioDuration host audioFilePath |}) in *.
  assert (Hfx : snd (mount api audioFilePath)
                = [SetCurrentStep StepTranscription; SetProgress 10;
                   CallProcessAudio audioFilePath;
                   SetTranscriptionResult result; SetProgress 40;
                   SetCurrentStep StepSpeakerIdentification])
    by (by apply startTranscription_speakers).
  assert (Hui : workflow ui = run initialState (snd (mount api audioFilePath)))
    by reflexivity.
  subst fx fx' ui'. clearbody ui. rewrite Hfx in Hui |- *. cbn in Hui.
  split; [by vm_compute|]. split; [reflexivity|].
  split; [by rewrite Hui|]. split; [by exists speaker; rewrite Hui|].
  split; [reflexivity|]. split; [reflexivity|]. split; [by rewrite Hui|].
  unfold act, react. cbn [fst snd workflow].
  unfold handleSkipSpeakerIdentification, startAIAnalysis, saveMeeting.
  rewrite Hui. cbn [view error currentStep transcriptionResult deleteRecording
                    tr_speakers tr_transcript tr_duration imap].
  rewrite analysable, storable.
  destruct (deleteAudio api audioFilePath);
    (split; [reflexivity|]; split; [reflexivity|];
     eexists; split; [reflexivity|];
     cbn [meetingDraft md_participants md_audioFilePath md_transcript
          deleteRecording tr_transcript List.map withName sp_name];
     repeat split).
Qed.

End BudgetRun.

Section NamingFacts.
Import JS SpeakerIdentification.

Lemma size_list_to_set_le (l : list string) :
  (size (list_to_set l : gset string) <= length l)%nat.
Proof.
  induction l as [|x l IH]; [done|].
  rewrite list_to_set_cons, size_union_alt, size_singleton. cbn [length].
  assert (size (list_to_set l ∖ {[x]} : gset string) <= size (list_to_set l : gset string))%nat
    by (apply subseteq_size, subseteq_difference_l; reflexivity).
  lia.
Qed.

(** [names.length === new Set(names).size] says that no name occurs twice. *)
Lemma length_size_NoDup (l : list string) :
  length l = size (list_to_set l : gset string) -> NoDup l.
Proof.
  induction l as [|x l IH]; intros Hlen; [constructor|].
  rewrite list_to_set_cons in Hlen. cbn [length] in Hlen.
  pose proof (size_list_to_set_le l) as Hle.
  destruct (decide (x ∈ l)) as [Hin|Hout].
  - rewrite (subseteq_union_1_L (C:=gset string)) in Hlen
      by (by apply singleton_subseteq_l, elem_of_list_to_set).
    lia.
  - rewrite size_union, size_singleton in Hlen
      by (by apply disjoint_singleton_l; rewrite elem_of_list_to_set).
    apply NoDup_cons. split; [exact Hout|]. apply IH. lia.
Qed.

Lemma filtered_values_injective (P : string -> bool) (l : list (string * string))
    (k1 k2 n : string) :
  NoDup (List.filter P (l.*2)) -> P n = true ->
  (k1, n) ∈ l -> (k2, n) ∈ l -> NoDup (l.*1) -> k1 = k2.
Proof.
  intros Hnd HP. induction l as [|[k v] l IH]; intros H1 H2 Hkeys; [by inversion H1|].
  cbn [fmap list_fmap snd fst List.filter] in *.
  assert (Hin : forall k', (k', n) ∈ l -> In n (List.filter P (l.*2))).
  { intros k' Hk'. apply filter_In. split; [|exact HP].
    apply list_elem_of_In, list_elem_of_fmap. by exists (k', n). }
  apply NoDup_cons in Hkeys as [_ Hkeys].
  apply elem_of_cons in H1 as [H1|H1]; apply elem_of_cons in H2 as [H2|H2]; simplify_eq.
  - reflexivity.
  - rewrite HP in Hnd. apply NoDup_cons in Hnd as [Hnot _].
    exfalso. apply Hnot, list_elem_of_In. by eapply Hin.
  - rewrite HP in Hnd. apply NoDup_cons in Hnd as [Hnot _].
    exfalso. apply Hnot, list_elem_of_In. by eapply Hin.
  - apply IH; try assumption.
    destruct (P v); [by apply NoDup_cons in Hnd as [_ ?]|exact Hnd].
Qed.

(** When every detected speaker has been given a name that is not blank,
    the names that pass the gate are pairwise distinct, and none is empty. *)
Lemma fully_named_speakers_are_distinct (speakers : list Speaker)
    (names : gmap string string) :
  NoDup (sp_id <$> speakers) ->
  (forall speaker, speaker ∈ speakers ->
     exists name, names !! sp_id speaker = Some name /\ nonBlank name = true) ->
  hasUniquenames names = true ->
  NoDup (sp_name <$> handleConfirmSpeakers speakers names)
  /\ Forall (fun name => name <> "") (sp_name <$> handleConfirmSpeakers speakers names).
Proof.
  intros Hids Hnamed Huniq.
  assert (Hnames : sp_name <$> handleConfirmSpeakers speakers names
                   = identifiedName names <$> speakers).
  { unfold handleConfirmSpeakers. induction speakers as [|s l IH]; [done|].
    cbn. f_equal. apply IH.
    - by apply NoDup_cons in Hids as [_ ?].
    - intros sp Hsp. apply Hnamed. by right. }
  rewrite Hnames. split.
  - apply Nat.eqb_eq, length_size_NoDup in Huniq.
    apply NoDup_fmap_2_strong; [|by eapply NoDup_fmap_1].
    intros s1 s2 H1 H2 Heq.
    destruct (Hnamed s1 H1) as (n1 & Hl1 & Hb1), (Hnamed s2 H2) as (n2 & Hl2 & Hb2).
    unfold identifiedName in Heq. rewrite Hl1, Hl2 in Heq.
    assert (Ht : forall n, nonBlank n = true -> truthy n = true) by (by intros []).
    rewrite (Ht _ Hb1), (Ht _ Hb2) in Heq. subst n2.
    assert (Hid : sp_id s1 = sp_id s2).
    { eapply (filtered_values_injective nonBlank (map_to_list names)); try eassumption.
      - by apply elem_of_map_to_list.
      - by apply elem_of_map_to_list.
      - apply NoDup_fst_map_to_list. }
    clear -Hids H1 H2 Hid. induction speakers as [|s l IH]; [by inversion H1|].
    cbn in Hids. apply NoDup_cons in Hids as [Hnot Hids].
    apply elem_of_cons in H1 as [->|H1]; apply elem_of_cons in H2 as [->|H2]; try done.
    + exfalso. apply Hnot. rewrite Hid. by apply list_elem_of_fmap_2.
    + exfalso. apply Hnot. rewrite <- Hid. by apply list_elem_of_fmap_2.
    + by apply IH.
  - apply Forall_fmap, Forall_forall. intros s _. cbn.
    unfold identifiedName, genericName.
    destruct (names !! sp_id s) as [[|c name]|]; discriminate.
Qed.

End NamingFacts.

Section NamingClaims.
Import JS TranscriptionService SpeakerIdentification ProcessingWorkflow Scenario.

(** The budget run on a host where everything succeeds but the deletion. *)
Lemma C2_witness :
  processAudio (bridge budgetTranscript deletionDenied) recordingPath
    = transcribeAudio (studio budgetTranscript) recordingPath
  /\ transcribe (studio budgetTranscript) recordingPath = Resolved budgetTranscript
  /\ steps (snd (mount (bridge budgetTranscript deletionDenied) recordingPath))
     = [StepTranscription; StepSpeakerIdentification]
  /\ steps (snd (act (bridge budgetTranscript deletionDenied) recordingPath
                     (fst (mount (bridge budgetTranscript deletionDenied) recordingPath))
                     ClickSkip))
     = [StepAIAnalysis; StepSaving; StepComplete]
  /\ List.map md_participants
       (saved (snd (act (bridge budgetTranscript deletionDenied) recordingPath
                        (fst (mount (bridge budgetTranscript deletionDenied) recordingPath))
                        ClickSkip)))
     = [["Speaker 1"]].
Proof.
  pose proof (C2_budget_run_names_then_persists
                (bridge budgetTranscript deletionDenied) (studio budgetTranscript)
                recordingPath fixedAnalysis persist
                eq_refl eq_refl eq_refl eq_refl
                (fun _ _ => eq_refl) (fun _ => eq_refl))
    as (_ & Hmount & _ & _ & _ & _ & _ & Hskip & _ & draft & Hsaved & Hnames & _).
  refine (conj eq_refl (conj eq_refl (conj Hmount (conj Hskip _)))).
  rewrite Hsaved. cbn [List.map]. by rewrite Hnames.
Defined.

(** A name that reaches the pipeline is never the empty string: an empty
    field falls back to the generic name. *)
Lemma identifiedName_nonempty (names : gmap string string) (speaker : Speaker) :
  identifiedName names speaker <> "".
Proof.
  unfold identifiedName, genericName.
  destruct (names !! sp_id speaker) as [[|c name]|]; discriminate.
Qed.

(** Two fields with the same typed name disable Confirm: the click does
    nothing and the run stays at the naming dialog. *)
Example same_typed_name_is_rejected :
  snd (session (bridge moderate deletionOk) recordingPath (naming moderate)
         [TypeName "speaker_1" "Bob"; TypeName "speaker_2" "Bob"; ClickConfirm]) = []
  /\ currentStep (workflow (fst
       (session (bridge moderate deletionOk) recordingPath (naming moderate)
          [TypeName "speaker_1" "Bob"; TypeName "speaker_2" "Bob"; ClickConfirm])))
     = StepSpeakerIdentification.
Proof. by vm_compute. Qed.

(** C8 does not hold of the dialog.  The uniqueness test looks at the
    non-blank typed names only, while the submitted name is the typed one
    whenever it is not empty, and the generic one otherwise.  With three
    voices named "Alice", " " and " " the button is enabled and the run
    goes on to analysis and persistence with the participants "Alice", " "
    and " "; with two voices, the first named "Speaker 2" and the second
    left empty, it goes on with "Speaker 2" twice. *)
Theorem C8_duplicate_names_pass_the_confirm_gate :
  (confirmEnabled
     (speakerNames (fst (session (bridge fiveHundredWords deletionOk) recordingPath
                           (naming fiveHundredWords) blanks))) = true
   /\ List.map meta_participants
        (analysed (snd (session (bridge fiveHundredWords deletionOk) recordingPath
                          (naming fiveHundredWords) blanks)))
      = [["Alice"; " "; " "]]
   /\ List.map md_participants
        (saved (snd (session (bridge fiveHundredWords deletionOk) recordingPath
                       (naming fiveHundredWords) blanks)))
      = [["Alice"; " "; " "]]
   /\ steps (snd (session (bridge fiveHundredWords deletionOk) recordingPath
                    (naming fiveHundredWords) blanks))
      = [StepAIAnalysis; StepSaving; StepComplete]
   /\ ~ NoDup ["Alice"; " "; " "])
  /\ (List.map md_participants
        (saved (snd (session (bridge moderate deletionOk) recordingPath
                       (naming moderate) borrowed)))
      = [["Speaker 2"; "Speaker 2"]]
      /\ ~ NoDup ["Speaker 2"; "Speaker 2"]).
Proof.
  split; [split; [by vm_compute|]; split; [by vm_compute|];
          split; [by vm_compute|]; split; [by vm_compute|] | split; [by vm_compute|]].
  - intros Hnd. apply NoDup_cons in Hnd as [_ Hnd].
    apply NoDup_cons in Hnd as [Hnot _]. apply Hnot. constructor.
  - intros Hnd. apply NoDup_cons in Hnd as [Hnot _]. apply Hnot. constructor.
Qed.

End NamingClaims.

(* ===================================================================== *)
(** * The recording controller over its lifetime                         *)
(* ===================================================================== *)

Section ControllerLifetime.
Import JS AudioRecordingService ControllerOps ControllerInvariant Scenario.

Lemma armedAfter_app (timers : list nat) (fx1 fx2 : list Effect) :
  armedAfter timers (fx1 ++ fx2) = armedAfter (armedAfter timers fx1) fx2.
Proof. apply foldl_app. Qed.

Lemma disarm_same (t : nat) : disarm t [t] = [].
Proof. cbn. by rewrite Nat.eqb_refl. Qed.

(** The guards, the failures and the success of [startRecording], one by
    one. *)
Lemma startRecording_cases (h : StartHost) (c : Controller) :
  (isRecording c = true /\ startRecording h c = (StartFailed alreadyRecording, c, []))
  \/ (isRecording c = false /\ findRecordProgram h = None
      /\ exists message,
           startRecording h c = (StartFailed message, c, [Emit (RecordingError message)]))
  \/ (isRecording c = false
      /\ exists program message fileName,
           findRecordProgram h = Some program /\ recorderThrows h = Some message
           /\ startRecording h c
              = (StartFailed message,
                 {| recording := recording c; isRecording := false;
                    startTime := startTime c;
                    audioFile := Some (pathJoin (recordingsDir c) fileName);
                    currentFileName := Some fileName; recordingsDir := recordingsDir c;
                    statusInterval := statusInterval c |},
                 [CreateWriteStream (pathJoin (recordingsDir c) fileName)]))
  \/ (isRecording c = false
      /\ exists program fileName,
           fileName = "meeting_" +:+ sliceTo 19 (replaceAll isColonOrDot "-" (isoNow h))
                        +:+ ".wav"
           /\ findRecordProgram h = Some program /\ recorderThrows h = None
           /\ startRecording h c
              = (StartOk fileName,
                 {| recording := Some program; isRecording := true;
                    startTime := Some (startNow h);
                    audioFile := Some (pathJoin (recordingsDir c) fileName);
                    currentFileName := Some fileName; recordingsDir := recordingsDir c;
                    statusInterval := Some (nextTimer h) |},
                 [CreateWriteStream (pathJoin (recordingsDir c) fileName);
                  StartRecorder program]
                   ++ match statusInterval c with
                      | Some old => [ClearInterval old]
                      | None => []
                      end
                   ++ [SetInterval (nextTimer h); Emit (RecordingStarted fileName)])).
Proof.
  unfold startRecording, startStatusUpdates.
  destruct (isRecording c) eqn:Hrec; [by left|]. right.
  destruct (findRecordProgram h) as [program|]; [|left; split; [done|]; split; [done|]; by eexists].
  right. destruct (recorderThrows h) as [message|].
  - left. split; [done|]. by eexists _, _, _.
  - right. split; [done|]. eexists _, _. split; [reflexivity|]. split; [done|].
    split; [done|]. cbn. by rewrite <- !app_assoc.
Qed.

(** The guards, the failures and the success of [stopRecording]. *)
Lemma stopRecording_cases (h : StopHost) (c : Controller) :
  (isRecording c = false /\ stopRecording h c = (StopFailed notRecording, c, []))
  \/ (isRecording c = true
      /\ exists message, stopRecording h c = (StopFailed message, c, []))
  \/ (isRecording c = true
      /\ exists message fx,
           stopRecording h c
           = (StopFailed message,
              {| recording := None; isRecording := isRecording c;
                 startTime := startTime c; audioFile := audioFile c;
                 currentFileName := currentFileName c; recordingsDir := recordingsDir c;
                 statusInterval := statusInterval c |}, fx)
           /\ forall timers, armedAfter timers fx = timers)
  \/ (isRecording c = true
      /\ exists audioFilePath duration fx,
           stopRecording h c
           = (StopOk audioFilePath duration,
              {| recording := None; isRecording := false; startTime := None;
                 audioFile := None; currentFileName := None;
                 recordingsDir := recordingsDir c; statusInterval := None |}, fx)
           /\ forall timers,
                armedAfter timers fx
                = match statusInterval c with
                  | Some t => disarm t timers
                  | None => timers
                  end).
Proof.
  unfold stopRecording.
  destruct (isRecording c) eqn:Hrec; cbn [negb]; [right|by left].
  destruct (recording c), (stopThrows h), (audioFile c), (endThrows h);
    first
      [ by (left; split; [done|]; eexists)
      | by (right; left; split; [done|]; eexists _, _; split; [reflexivity|])
      | right; right; split; [done|]; eexists _, _, _; split; [reflexivity|];
        intros timers; rewrite ?armedAfter_app; by destruct (statusInterval c) ].
Qed.

End ControllerLifetime.

Section ControllerTimers.
Import JS AudioRecordingService ControllerOps ControllerInvariant Scenario.

Lemma pause_timers (c : Controller) :
  armedAfter (option_list (statusInterval c)) (snd (pauseForUserChoice c)) = []
  /\ statusInterval (fst (pauseForUserChoice c)) = None
  /\ isRecording (fst (pauseForUserChoice c)) = isRecording c
  /\ startTime (fst (pauseForUserChoice c)) = startTime c
  /\ currentFileName (fst (pauseForUserChoice c)) = currentFileName c
  /\ audioFile (fst (pauseForUserChoice c)) = audioFile c.
Proof.
  unfold pauseForUserChoice. destruct (statusInterval c) eqn:Ht; cbn; rewrite ?Nat.eqb_refl;
    by rewrite ?Ht.
Qed.

(** One operation keeps the armed timers equal to the handle the service
    holds. *)
Lemma step_timers (op : Op) (c : Controller) :
  armedAfter (option_list (statusInterval c)) (snd (step op c))
  = option_list (statusInterval (fst (step op c))).
Proof.
  assert (Hstop : forall h,
    armedAfter (option_list (statusInterval c)) (snd (stopRecording h c))
    = option_list (statusInterval (snd (fst (stopRecording h c))))).
  { intros h.
    destruct (stopRecording_cases h c)
      as [[_ ->]|[(_ & m & ->)|[(_ & m & fx & -> & Hfx)|(_ & p & d & fx & -> & Hfx)]]];
      cbn [fst snd statusInterval]; rewrite ?Hfx; try done.
    destruct (statusInterval c); cbn; by rewrite ?Nat.eqb_refl. }
  destruct op as [h|h|now rnd| |timer|h message|h]; cbn [step].
  - destruct (startRecording_cases h c)
      as [[_ ->]|[(_ & _ & m & ->)|[(_ & p & m & f & _ & _ & ->)|(_ & p & f & _ & _ & _ & ->)]]];
      try done.
    cbn. destruct (statusInterval c); cbn; by rewrite ?Nat.eqb_refl.
  - specialize (Hstop h). by destruct (stopRecording h c) as [[? ?] ?].
  - unfold statusTick. destruct (isRecording c); cbn [negb].
    + cbn [fst snd]. unfold timeWarningAt. by repeat case_match.
    + destruct (statusInterval c) eqn:Ht; cbn; by rewrite ?Nat.eqb_refl, ?Ht.
  - by destruct (pause_timers c) as (-> & -> & _).
  - unfold resumeStatusUpdates, startStatusUpdates. destruct (isRecording c); [|done].
    cbn [fst snd statusInterval]. rewrite armedAfter_app.
    destruct (statusInterval c); cbn; by rewrite ?Nat.eqb_refl.
  - unfold onStreamError. specialize (Hstop h).
    destruct (stopRecording h c) as [[? c1] fx]. cbn [fst snd] in *.
    by rewrite armedAfter_app, Hstop.
  - unfold destroy. destruct (isRecording c) eqn:Hrec.
    + specialize (Hstop h). destruct (stopRecording h c) as [[? c1] fx].
      cbn [fst snd] in *. destruct (pause_timers c1) as (Ha & Hs & _).
      destruct (pauseForUserChoice c1). cbn [fst snd] in *.
      by rewrite armedAfter_app, Hstop, Ha, Hs.
    + destruct (pause_timers c) as (Ha & Hs & _).
      destruct (pauseForUserChoice c). cbn [fst snd app] in *. by rewrite Ha, Hs.
Qed.

Lemma runOps_timers (ops : list Op) (c : Controller) :
  armedAfter (option_list (statusInterval c)) (snd (runOps ops c))
  = option_list (statusInterval (fst (runOps ops c))).
Proof.
  revert c. induction ops as [|op rest IH]; intros c; [done|].
  cbn [runOps]. pose proof (step_timers op c) as Hstep.
  destruct (step op c) as [c1 fx1]. specialize (IH c1).
  destruct (runOps rest c1) as [c2 fx2]. cbn [fst snd] in *.
  by rewrite armedAfter_app, Hstep, IH.
Qed.

(** One operation keeps the fields of the service consistent. *)
Lemma step_consistent (op : Op) (c : Controller) :
  consistent c -> consistent (fst (step op c)).
Proof.
  intros [Hon Hoff].
  assert (Hstop : forall h, consistent (snd (fst (stopRecording h c)))).
  { intros h.
    destruct (stopRecording_cases h c)
      as [[_ ->]|[(_ & m & ->)|[(Hrec & m & fx & -> & _)|(_ & p & d & fx & -> & _)]]];
      cbn [fst snd]; by split. }
  assert (Hpause : forall c0, consistent c0 -> consistent (fst (pauseForUserChoice c0))).
  { intros c0 [Hon0 Hoff0]. destruct (pause_timers c0) as (_ & Hs & Hr & Ht & Hf & Ha).
    split; rewrite ?Hs, Hr, Ht, ?Hf, ?Ha; [exact Hon0|].
    intros Hidle. by destruct (Hoff0 Hidle). }
  assert (Hc : consistent c) by (by split).
  destruct op as [h|h|now rnd| |timer|h message|h]; cbn [step].
  - destruct (startRecording_cases h c)
      as [[_ ->]|[(_ & _ & m & ->)|[(Hrec & p & m & f & _ & _ & ->)|(_ & p & f & _ & _ & _ & ->)]]];
      cbn [fst snd]; try (by split).
    split; cbn; [discriminate|]. intros _. by apply Hoff.
  - specialize (Hstop h). revert Hstop.
    destruct (stopRecording h c) as [[? ?] ?]. exact id.
  - unfold statusTick. destruct (isRecording c) eqn:Hrec; cbn [negb fst]; [exact Hc|].
    destruct (statusInterval c); cbn [fst]; [|exact Hc].
    split; cbn; [congruence|]. intros _. split; [by apply Hoff|done].
  - by apply Hpause.
  - unfold resumeStatusUpdates, startStatusUpdates.
    destruct (isRecording c) eqn:Hrec; cbn [fst]; [|exact Hc].
    split; cbn; [|congruence]. intros _. by apply Hon.
  - unfold onStreamError. specialize (Hstop h). revert Hstop.
    destruct (stopRecording h c) as [[? ?] ?]. exact id.
  - unfold destroy. destruct (isRecording c) eqn:Hrec.
    + specialize (Hstop h). revert Hstop.
      destruct (stopRecording h c) as [[? c1] ?]. cbn [fst snd]. intros Hstop.
      apply Hpause in Hstop. revert Hstop. destruct (pauseForUserChoice c1). exact id.
    + apply Hpause in Hc. revert Hc. destruct (pauseForUserChoice c). exact id.
Qed.

Lemma runOps_consistent (ops : list Op) (c : Controller) :
  consistent c -> consistent (fst (runOps ops c)).
Proof.
  revert c. induction ops as [|op rest IH]; intros c Hc; [done|].
  cbn [runOps]. apply (step_consistent op) in Hc. revert Hc.
  destruct (step op c) as [c1 fx1]. cbn [fst]. intros Hc. apply IH in Hc. revert Hc.
  destruct (runOps rest c1). exact id.
Qed.

Lemma construct_consistent (homedir : string) : consistent (construct homedir).
Proof. by split. Qed.

(** X1. Whatever is done to the service after its construction (starts,
    stops, ticks, pauses, resumes, stream errors, teardowns, failing or
    not), the status timers that are armed are exactly the one handle the
    service holds: never two at a time, and none while it is not
    recording. *)
Theorem status_timers_never_accumulate (ops : list Op) (homedir : string) :
  armedAfter [] (snd (runOps ops (construct homedir)))
    = option_list (statusInterval (fst (runOps ops (construct homedir))))
  /\ (length (armedAfter [] (snd (runOps ops (construct homedir)))) <= 1)%nat
  /\ (isRecording (fst (runOps ops (construct homedir))) = false ->
      armedAfter [] (snd (runOps ops (construct homedir))) = []).
Proof.
  pose proof (runOps_timers ops (construct homedir)) as Ht.
  change (option_list (statusInterval (construct homedir))) with (@nil nat) in Ht.
  pose proof (runOps_consistent ops _ (construct_consistent homedir)) as [_ Hoff].
  rewrite Ht. split; [done|]. split.
  - destruct (statusInterval _); cbn; lia.
  - intros Hidle. by destruct (Hoff Hidle) as [_ ->].
Qed.

(** X2. After any such history the fields of the service agree: while it
    is recording it has a start time, a file name and an open stream; while
    it is not, it has no start time and no timer, and its status reports a
    duration of zero and a level of zero. *)
Theorem controller_fields_stay_consistent (ops : list Op) (homedir : string)
    (now : Z) (rnd : Q) :
  let c := fst (runOps ops (construct homedir)) in
  consistent c
  /\ (isRecording c = false ->
      rs_duration (getRecordingStatus now rnd c) = 0%Z
      /\ rs_audioLevel (getRecordingStatus now rnd c) = 0%Q
      /\ rs_isRecording (getRecordingStatus now rnd c) = false)
  /\ (isRecording c = true ->
      exists start, startTime c = Some start
        /\ rs_duration (getRecordingStatus now rnd c) = elapsed start now).
Proof.
  intros c.
  pose proof (runOps_consistent ops _ (construct_consistent homedir)) as Hc.
  fold c in Hc. split; [exact Hc|]. destruct Hc as [Hon Hoff].
  unfold getRecordingStatus, getAudioLevel. split; intros Hrec; rewrite Hrec; cbn.
  - done.
  - destruct (Hon Hrec) as ([start Hs] & _). exists start. by rewrite Hs.
Qed.

End ControllerTimers.

Section ControllerSessions.
Import JS AudioRecordingService ControllerOps ControllerInvariant Scenario.

Lemma truthy_pathJoin (dir name : string) : truthy (pathJoin dir name) = true.
Proof. unfold pathJoin. by destruct dir. Qed.

(** X3. A start that finds a backend followed by a stop that does not
    throw is a round trip: the stop returns the path of the file the start
    opened and the whole seconds between the two readings of the clock,
    closes that file, disarms the timer, and leaves the service with every
    field cleared; the observers have seen one started and one stopped
    event, for that file. *)
Theorem start_then_stop_round_trip (hs : StartHost) (hp : StopHost) (c : Controller) :
  isRecording c = false ->
  findRecordProgram hs <> None ->
  recorderThrows hs = None ->
  stopThrows hp = None ->
  endThrows hp = None ->
  exists fileName c1 fx1 fx2,
    let filePath := pathJoin (recordingsDir c) fileName in
    let duration := elapsed (startNow hs) (stopNow hp) in
    startRecording hs c = (StartOk fileName, c1, fx1)
    /\ stopRecording hp c1
       = (StopOk (Some filePath) duration,
          {| recording := None; isRecording := false; startTime := None;
             audioFile := None; currentFileName := None;
             recordingsDir := recordingsDir c; statusInterval := None |},
          fx2)
    /\ opened (fx1 ++ fx2) = [filePath]
    /\ closed (fx1 ++ fx2) = [filePath]
    /\ events (fx1 ++ fx2)
       = [RecordingStarted fileName;
          RecordingStopped (Some fileName) duration (Some filePath)]
    /\ armedAfter (option_list (statusInterval c)) (fx1 ++ fx2) = [].
Proof.
  intros Hidle Hprog Hthrow Hstop Hend.
  destruct (startRecording_cases hs c)
    as [[? _]|[(_ & ? & _)|[(_ & p & m & f & _ & ? & _)|(_ & p & f & _ & _ & _ & Hstart)]]];
    try congruence.
  eexists f, _, _, _. cbn zeta. split; [exact Hstart|].
  unfold stopRecording. cbn [isRecording negb recording audioFile startTime
    currentFileName recordingsDir statusInterval fmap option_fmap option_map mbind
    option_bind].
  rewrite Hstop, Hend, truthy_pathJoin. split; [reflexivity|].
  unfold opened, closed, events. rewrite !flat_map_app.
  destruct (statusInterval c); cbn; by rewrite ?Nat.eqb_refl.
Qed.

(** A whole session, from the constructed service. *)
Lemma start_then_stop_witness :
  isRecording idle = false
  /\ exists fileName c1 fx1 fx2,
       startRecording morning idle = (StartOk fileName, c1, fx1)
       /\ stopRecording noon c1
          = (StopOk (Some (pathJoin (recordingsDir idle) fileName))
                    (elapsed (startNow morning) (stopNow noon)),
             idle, fx2)
       /\ opened (fx1 ++ fx2) = closed (fx1 ++ fx2).
Proof.
  split; [reflexivity|].
  destruct (start_then_stop_round_trip morning noon idle eq_refl
              ltac:(vm_compute; discriminate) eq_refl eq_refl eq_refl)
    as (f & c1 & fx1 & fx2 & Hstart & Hstop & Ho & Hc & _).
  exists f, c1, fx1, fx2. split; [exact Hstart|]. split; [exact Hstop|].
  cbn zeta in Ho, Hc. by rewrite Ho, Hc.
Defined.

(** X4. A start succeeds exactly when no session is active, a capture
    program is found and starting it does not throw.  A start that fails
    starts no recorder, arms and disarms no timer, announces no started
    session, and leaves the recording flag and the start time alone. *)
Theorem failed_start_starts_nothing (h : StartHost) (c : Controller) :
  let result := fst (fst (startRecording h c)) in
  let c' := snd (fst (startRecording h c)) in
  let fx := snd (startRecording h c) in
  ((exists fileName, result = StartOk fileName)
     <-> isRecording c = false /\ findRecordProgram h <> None /\ recorderThrows h = None)
  /\ ((exists message, result = StartFailed message) ->
        isRecording c' = isRecording c
        /\ startTime c' = startTime c
        /\ statusInterval c' = statusInterval c
        /\ recorders fx = []
        /\ (forall timers, armedAfter timers fx = timers)
        /\ (forall fileName, ~ In (RecordingStarted fileName) (events fx))
        /\ (findRecordProgram h = None -> isRecording c = false ->
            c' = c /\ opened fx = []
            /\ exists message, result = StartFailed message
                               /\ events fx = [RecordingError message])).
Proof.
  intros result c' fx. subst result c' fx.
  destruct (startRecording_cases h c)
    as [[Hrec ->]|[(Hrec & Hnone & m & ->)
       |[(Hrec & p & m & f & Hp & Ht & ->)|(Hrec & p & f & _ & Hp & Ht & ->)]]];
    cbn [fst snd].
  - split; [split; [intros [? [=]]|intros (? & _); congruence]|].
    intros _. repeat split; try done. intros _ []. congruence.
  - split; [split; [intros [? [=]]|intros (_ & ? & _); congruence]|].
    intros _. repeat split; try done.
    + intros ? [[=]|[]].
    + by exists m.
  - split; [split; [intros [? [=]]|intros (_ & _ & ?); congruence]|].
    intros _. repeat split; try done; try congruence. intros ? [].
  - split; [split; [intros _; repeat split; congruence|intros _; by eexists]|].
    intros [? [=]].
Qed.






End ControllerSessions.

Section ControllerStatus.
Import JS AudioRecordingService ControllerOps ControllerInvariant Scenario.

(** X6. With a draw of [Math.random()] in [0, 1), the audio level of a
    status lies between 0.1 and 0.9 while recording and is 0 otherwise, so
    always within [0, 1]; and the duration of a session started at [start]
    is the number of whole seconds elapsed: it is not negative when the
    clock has not gone back, and a second is counted only when complete. *)
Theorem status_is_bounded (now : Z) (rnd : Q) (c : Controller) :
  (0 <= rnd)%Q -> (rnd < 1)%Q ->
  let status := getRecordingStatus now rnd c in
  (0 <= rs_audioLevel status <= 1)%Q
  /\ (isRecording c = true -> (0.1 <= rs_audioLevel status <= 0.9)%Q)
  /\ (isRecording c = false -> rs_audioLevel status = 0%Q /\ rs_duration status = 0%Z)
  /\ (forall start,
        isRecording c = true -> startTime c = Some start -> (start <= now)%Z ->
        (0 <= rs_duration status)%Z
        /\ (1000 * rs_duration status <= now - start < 1000 * (rs_duration status + 1))%Z).
Proof.
  intros Hlo Hhi status. subst status. unfold getRecordingStatus, getAudioLevel.
  destruct (isRecording c); cbn [negb rs_audioLevel rs_duration].
  - split; [split; lra|]. split; [intros _; split; lra|]. split; [discriminate|].
    intros start _ -> Hle. unfold elapsed.
    pose proof (Z.div_mod (now - start) 1000 ltac:(lia)).
    pose proof (Z.mod_pos_bound (now - start) 1000 ltac:(lia)).
    split; [apply Z.div_pos; lia|lia].
  - split; [split; lra|]. split; [discriminate|]. split; [done|]. discriminate.
Qed.

Lemma status_is_bounded_witness :
  (0 <= 0.5)%Q /\ (0.5 < 1)%Q
  /\ rs_duration (getRecordingStatus (startNow morning + 4200999) 0.5 busy) = 4200%Z
  /\ (0.1 <= rs_audioLevel (getRecordingStatus (startNow morning + 4200999) 0.5 busy)
      <= 0.9)%Q.
Proof.
  assert (H0 : (0 <= 0.5)%Q) by (vm_compute; discriminate).
  assert (H1 : (0.5 < 1)%Q) by reflexivity.
  refine (conj H0 (conj H1 (conj eq_refl _))).
  exact (proj1 (proj2 (status_is_bounded (startNow morning + 4200999) 0.5 busy H0 H1))
           eq_refl).
Defined.



(** X8. Pausing and resuming the status updates never touches the
    recording itself: whatever the state, every field but the timer handle
    is as before, the warnings of the next tick are those it would have
    emitted anyway, and after a resume a recording service holds exactly
    the new handle while an idle one holds none it did not hold. *)
Theorem pause_and_resume_keep_the_recording (timer : nat) (c : Controller) :
  let paused := fst (pauseForUserChoice c) in
  let resumed := fst (resumeStatusUpdates timer paused) in
  (recording resumed, isRecording resumed, startTime resumed, audioFile resumed,
   currentFileName resumed, recordingsDir resumed)
  = (recording c, isRecording c, startTime c, audioFile c, currentFileName c,
     recordingsDir c)
  /\ statusInterval paused = None
  /\ statusInterval resumed = (if isRecording c then Some timer else None)
  /\ armedAfter (option_list (statusInterval c))
       (snd (pauseForUserChoice c) ++ snd (resumeStatusUpdates timer paused))
     = option_list (statusInterval resumed)
  /\ (forall now rnd,
        timeWarnings (snd (statusTick now rnd resumed))
        = timeWarnings (snd (statusTick now rnd c))).
Proof.
  intros paused resumed. subst paused resumed.
  unfold pauseForUserChoice, resumeStatusUpdates, startStatusUpdates.
  destruct (statusInterval c) eqn:Ht, (isRecording c) eqn:Hrec;
    cbn; rewrite ?Hrec, ?Ht, ?Nat.eqb_refl; cbn; rewrite ?Hrec, ?Ht.
  all: repeat split.
  all: intros; unfold statusTick, getRecordingStatus, getAudioLevel; cbn.
  all: rewrite ?Hrec, ?Ht; cbn.
  all: reflexivity.
Qed.

End ControllerStatus.

(* ===================================================================== *)
(** * More on the speaker estimator                                      *)
(* ===================================================================== *)

Section EstimatedSpeakers.
Import JS TranscriptionService SpeakerIdentification SpeakerView Scenario.

Lemma showNat_inj (n m : nat) : showNat n = showNat m -> n = m.
Proof.
  unfold showNat. intros H.
  apply (f_equal NilEmpty.uint_of_string) in H. rewrite !NilEmpty.usu in H.
  injection H as H. apply (f_equal Nat.of_uint) in H. by rewrite !Unsigned.of_to in H.
Qed.

Lemma append_inj_prefix (p s1 s2 : string) : p +:+ s1 = p +:+ s2 -> s1 = s2.
Proof. induction p as [|c p IH]; cbn; [done|]. intros [= H]. by apply IH. Qed.

(** A decimal numeral has no underscore. *)
Lemma splitChar_numeral (d : Decimal.uint) :
  splitChar "_" (NilEmpty.string_of_uint d) = [NilEmpty.string_of_uint d].
Proof. induction d; cbn; by rewrite ?IHd. Qed.

Lemma speakers_lookup h random transcript audioFilePath (i : nat) :
  (i < numSpeakers transcript)%nat ->
  exists audioSnippets,
    simulateSpeakerDiarization h random transcript audioFilePath !! i
    = Some (speakerAt random audioSnippets i).
Proof.
  intros Hi. unfold simulateSpeakerDiarization. eexists.
  change (List.map ?f ?l) with (f <$> l).
  rewrite list_lookup_fmap, lookup_seq_lt by done. reflexivity.
Qed.

(** X9. The estimator numbers its speakers from 1: the speaker at position
    [i] has the id "speaker_" and the name "Speaker " followed by [i + 1].
    Ids are pairwise distinct, and so are names; they depend on the
    transcript alone, not on the audio file or on what the host did with
    the snippets. *)
Theorem estimated_speakers_are_numbered h random transcript audioFilePath :
  let speakers := simulateSpeakerDiarization h random transcript audioFilePath in
  sp_id <$> speakers
    = (fun i => "speaker_" +:+ showNat (i + 1)) <$> seq 0 (numSpeakers transcript)
  /\ sp_name <$> speakers
     = (fun i => "Speaker " +:+ showNat (i + 1)) <$> seq 0 (numSpeakers transcript)
  /\ NoDup (sp_id <$> speakers)
  /\ NoDup (sp_name <$> speakers).
Proof.
  intros speakers. subst speakers. unfold simulateSpeakerDiarization.
  change (List.map ?f ?l) with (f <$> l). rewrite <- !list_fmap_compose.
  split; [reflexivity|]. split; [reflexivity|].
  split; (apply NoDup_fmap_2_strong; [|apply NoDup_seq]);
    intros i j _ _ Heq; cbn in Heq;
    [apply (append_inj_prefix "speaker_") in Heq
    |apply (append_inj_prefix "Speaker ") in Heq];
    apply showNat_inj in Heq; lia.
Qed.

(** X10. A field of the naming dialog that is left empty gets, for a
    speaker that came from the estimator, the generic name made from the
    number in its id, which is the name the estimator gave it and the one
    that skipping the dialog assigns at its position. *)
Theorem empty_field_keeps_the_estimated_name h random transcript audioFilePath
    (names : gmap string string) (i : nat) (speaker : Speaker) :
  simulateSpeakerDiarization h random transcript audioFilePath !! i = Some speaker ->
  names !! sp_id speaker = None \/ names !! sp_id speaker = Some "" ->
  identifiedName names speaker = "Speaker " +:+ showNat (i + 1)
  /\ identifiedName names speaker = sp_name speaker.
Proof.
  intros Hi Hempty.
  assert (Hlt : (i < numSpeakers transcript)%nat).
  { apply lookup_lt_Some in Hi. by rewrite simulateSpeakerDiarization_length in Hi. }
  destruct (speakers_lookup h random transcript audioFilePath i Hlt) as [snips Hs].
  rewrite Hs in Hi. injection Hi as <-.
  assert (Hgen : genericName (speakerAt random snips i) = "Speaker " +:+ showNat (i + 1)).
  { unfold genericName, speakerAt, showNat. cbn [sp_id].
    change (splitChar "_" ("speaker_" +:+ ?s)) with ("speaker" :: splitChar "_" s).
    by rewrite splitChar_numeral. }
  unfold identifiedName. destruct Hempty as [-> | ->]; cbn [truthy]; by rewrite Hgen.
Qed.

Lemma empty_field_witness :
  simulateSpeakerDiarization posix (fun _ => 0.5%Q) moderate (Some recordingPath) !! 1%nat
    = Some (speakerAt (fun _ => 0.5%Q)
              (extractAudioSnippets posix recordingPath 2) 1)
  /\ identifiedName (initialNames
                       (simulateSpeakerDiarization posix (fun _ => 0.5%Q) moderate
                          (Some recordingPath)))
                    (speakerAt (fun _ => 0.5%Q)
                       (extractAudioSnippets posix recordingPath 2) 1)
     = "Speaker 2".
Proof.
  split; [by vm_compute|].
  refine (proj1 (empty_field_keeps_the_estimated_name posix (fun _ => 0.5%Q) moderate
                   (Some recordingPath) _ 1 _ _ _)).
  - by vm_compute.
  - right. by vm_compute.
Defined.

(** X11. With draws of [Math.random()] in [0, 1), the confidence of every
    estimated speaker lies between 0.75 and 0.95, within [0, 1]; the dialog
    therefore never shows it as Low nor in red, and shows it as High, in
    green, exactly from 0.8 on. *)
Theorem estimated_confidence_is_never_low h (random : nat -> Q) transcript audioFilePath
    (speaker : Speaker) :
  (forall i, (0 <= random i)%Q /\ (random i < 1)%Q) ->
  In speaker (simulateSpeakerDiarization h random transcript audioFilePath) ->
  (0.75 <= sp_confidence speaker <= 0.95)%Q
  /\ (0 <= sp_confidence speaker <= 1)%Q
  /\ getConfidenceLabel (sp_confidence speaker) <> "Low"
  /\ getConfidenceColor (sp_confidence speaker) <> "text-red-600"
  /\ (getConfidenceLabel (sp_confidence speaker) = "High"
      <-> (0.8 <= sp_confidence speaker)%Q)
  /\ (getConfidenceColor (sp_confidence speaker) = "text-green-600"
      <-> getConfidenceLabel (sp_confidence speaker) = "High").
Proof.
  intros Hrandom Hin. unfold simulateSpeakerDiarization in Hin.
  apply in_map_iff in Hin as (i & <- & _). cbn [speakerAt sp_confidence].
  destruct (Hrandom i) as [Hlo Hhi].
  assert (Hband : (0.75 <= 0.75 + random i * 0.2 <= 0.95)%Q) by (split; lra).
  split; [exact Hband|]. split; [split; lra|].
  unfold getConfidenceLabel, getConfidenceColor, ge.
  destruct (Qle_bool 0.8 (0.75 + random i * 0.2)) eqn:H8.
  - apply Qle_bool_iff in H8. repeat split; try done.
  - assert (H6 : Qle_bool 0.6 (0.75 + random i * 0.2) = true)
      by (apply Qle_bool_iff; lra).
    rewrite H6. repeat split; try done.
    intros Hle. apply Qle_bool_iff in Hle. congruence.
Qed.

Lemma estimated_confidence_witness :
  (forall i : nat, (0 <= 0.5)%Q /\ (0.5 < 1)%Q)
  /\ getConfidenceLabel
       (sp_confidence (speakerAt (fun _ => 0.5%Q)
                         (extractAudioSnippets posix recordingPath 2) 1)) = "High".
Proof.
  assert (Hr : forall i : nat, (0 <= 0.5)%Q /\ (0.5 < 1)%Q)
    by (intros _; split; [vm_compute; discriminate|reflexivity]).
  split; [exact Hr|].
  apply (proj1 (proj2 (proj2 (proj2 (proj2
           (estimated_confidence_is_never_low posix (fun _ => 0.5%Q) moderate
              (Some recordingPath) _ Hr
              ltac:(vm_compute; right; left; reflexivity))))))).
  vm_compute. discriminate.
Defined.

End EstimatedSpeakers.

Section EstimateShape.
Import JS TranscriptionService Scenario.

Lemma looksLikeDialogue_counts (transcript : string) :
  looksLikeDialogue transcript = true
  <-> (5 < length (sentences transcript))%nat
      /\ (6 * length (sentences transcript) < 10 * shortSentences transcript)%nat.
Proof.
  unfold looksLikeDialogue. rewrite andb_true_iff, Nat.ltb_lt.
  split; intros [Hlen Hratio]; (split; [exact Hlen|]).
  - change 0.6%Q with (Z.pos 6 # 10) in Hratio.
    apply ratio_gt in Hratio; lia.
  - change 0.6%Q with (Z.pos 6 # 10). apply ratio_gt; lia.
Qed.

(** X12. The estimate in whole numbers.  It is 3 exactly for a transcript
    of more than 100 words of which more than 15 in 100 are conversational;
    it is 1 exactly for a transcript of at most 100 words, or one of which at
    most 8 words in 100 are conversational and which does not look like a
    dialogue; it is 2 otherwise.  The cap of 4 speakers is never reached. *)
Theorem estimate_in_whole_numbers (transcript : string) :
  let words := totalWords transcript in
  let hits := indicatorCount transcript in
  (numSpeakers transcript <= 3)%nat
  /\ (numSpeakers transcript = 3%nat
      <-> (100 < words)%nat /\ (15 * words < 100 * hits)%nat)
  /\ (numSpeakers transcript = 1%nat
      <-> (words <= 100)%nat
          \/ ((100 * hits <= 8 * words)%nat /\ looksLikeDialogue transcript = false))
  /\ (numSpeakers transcript = 2%nat
      <-> (100 < words)%nat /\ (100 * hits <= 15 * words)%nat
          /\ ((8 * words < 100 * hits)%nat \/ looksLikeDialogue transcript = true)).
Proof.
  intros words hits. subst words hits.
  pose proof (ratioEstimate_counts transcript) as Hr.
  destruct (Nat.le_gt_cases (totalWords transcript) 100) as [Hshort|Hlong].
  - rewrite (numSpeakers_short _ Hshort). repeat split; try lia; intros; try lia;
      try (by left).
  - rewrite (numSpeakers_long _ Hlong), Hr.
    destruct (Z.ltb_spec (15 * Z.of_nat (totalWords transcript))
                         (100 * Z.of_nat (indicatorCount transcript)));
      destruct (Z.ltb_spec (8 * Z.of_nat (totalWords transcript))
                           (100 * Z.of_nat (indicatorCount transcript)));
      destruct (looksLikeDialogue transcript); cbn [Nat.max];
      repeat split; intros; try lia; try intuition (discriminate || lia).
Qed.

(** X13. Extraction failures are tolerated speaker by speaker.  The
    speaker at position [i] carries the path of its snippet, cut at second
    [10 + 30 i] into "speaker_<i+1>_sample.wav" of the snippets directory,
    when an audio path was given, the directory could be prepared and SoX
    left that snippet; it carries the empty string otherwise.  Nothing else
    about the speakers depends on the host. *)
Theorem snippet_failures_are_tolerated h h' random transcript audioFilePath
    (i : nat) (speaker : Speaker) :
  simulateSpeakerDiarization h random transcript audioFilePath !! i = Some speaker ->
  let snippetPath p :=
    join h (join h (dirname h p) "snippets")
         ("speaker_" +:+ showNat (i + 1) +:+ "_sample.wav") in
  sp_sampleAudio speaker
    = match audioFilePath with
      | Some p =>
          if truthy p && negb (mkdirThrows h)
             && soxExtracts h p (snippetPath p) (10 + 30 * i)
          then snippetPath p else ""
      | None => ""
      end
  /\ exists speaker',
       simulateSpeakerDiarization h' random transcript audioFilePath !! i = Some speaker'
       /\ sp_id speaker' = sp_id speaker
       /\ sp_name speaker' = sp_name speaker
       /\ sp_confidence speaker' = sp_confidence speaker.
Proof.
  intros Hi snippetPath.
  assert (Hlt : (i < numSpeakers transcript)%nat).
  { apply lookup_lt_Some in Hi. by rewrite simulateSpeakerDiarization_length in Hi. }
  split.
  - unfold simulateSpeakerDiarization in Hi.
    change (List.map ?f ?l) with (f <$> l) in Hi.
    rewrite list_lookup_fmap, lookup_seq_lt in Hi by done.
    injection Hi as <-. cbn [speakerAt sp_sampleAudio].
    destruct audioFilePath as [p|]; [|done].
    destruct (truthy p); [|done]. unfold extractAudioSnippets.
    destruct (mkdirThrows h); [done|]. cbn [andb negb].
    change (List.map ?f ?l) with (f <$> l).
    rewrite list_lookup_fmap, lookup_seq_lt by done. cbn [fmap option_fmap option_map default].
    subst snippetPath. cbn beta. unfold id. cbn [Nat.add].
    by replace (i * 30 + 10)%nat with (10 + 30 * i)%nat by lia.
  - destruct (speakers_lookup h random transcript audioFilePath i Hlt) as [s1 H1].
    destruct (speakers_lookup h' random transcript audioFilePath i Hlt) as [s2 H2].
    rewrite H1 in Hi. injection Hi as <-. by eexists.
Qed.

Lemma snippet_failures_witness :
  exists speaker,
    simulateSpeakerDiarization posix (fun _ => 0.5%Q) fiveHundredWords (Some recordingPath)
      !! 2%nat = Some speaker
    /\ sp_sampleAudio speaker = ""
    /\ soxExtracts posix recordingPath
         "/home/ada/MeetingIntelligence/recordings/snippets/speaker_3_sample.wav" 70 = false.
Proof.
  eexists. split; [by vm_compute|]. split; [|reflexivity].
  exact (proj1 (snippet_failures_are_tolerated posix posix (fun _ => 0.5%Q) fiveHundredWords
                  (Some recordingPath) 2 _ ltac:(by vm_compute))).
Defined.

(** X14. A transcription resolves exactly when the client is initialized,
    the audio file exists and the service answers; it then carries the text
    of the service, one speaker per estimate of that text, the confidence
    0.9 and the size of the file in units of 32000 bytes.  A missing client
    is reported before a missing file, and a failure of the service under
    the prefix "Transcription failed: ". *)
Theorem transcription_resolves_exactly_when (h : Host) (audioFilePath : string) :
  ((exists result, transcribeAudio h audioFilePath = Resolved result)
     <-> openaiReady h = true /\ fileExists h audioFilePath = true
         /\ exists text, transcribe h audioFilePath = Resolved text)
  /\ (forall result,
        transcribeAudio h audioFilePath = Resolved result ->
        transcribe h audioFilePath = Resolved (tr_transcript result)
        /\ length (tr_speakers result) = numSpeakers (tr_transcript result)
        /\ tr_confidence result = 0.9%Q
        /\ tr_duration result = (fileSize h audioFilePath / 32000)%Z)
  /\ (openaiReady h = false ->
        transcribeAudio h audioFilePath
        = Rejected "OpenAI client not initialized. Please check your API key.")
  /\ (openaiReady h = true -> fileExists h audioFilePath = false ->
        transcribeAudio h audioFilePath
        = Rejected ("Audio file not found: " +:+ audioFilePath))
  /\ (forall message,
        openaiReady h = true -> fileExists h audioFilePath = true ->
        transcribe h audioFilePath = Rejected message ->
        transcribeAudio h audioFilePath = Rejected ("Transcription failed: " +:+ message)).
Proof.
  unfold transcribeAudio, getAudioDuration.
  destruct (openaiReady h), (fileExists h audioFilePath),
    (transcribe h audioFilePath) as [text|message] eqn:Ht; cbn [negb].
  all: split;
    [split; [intros [r Hr]; try discriminate; by eauto
            |intros (? & ? & text' & ?); try discriminate; by eauto]|].
  all: split;
    [intros r Hr; try discriminate; injection Hr as <-;
     cbn [tr_transcript tr_speakers tr_confidence tr_duration];
     by rewrite simulateSpeakerDiarization_length|].
  all: repeat split; try done; try discriminate; by intros ? _ _ [= ->].
Qed.

End EstimateShape.

Section LetterCase.
Import JS TranscriptionService Scenario.

Lemma lowerChar_idem (c : ascii) : lowerChar (lowerChar c) = lowerChar c.
Proof. destruct c as [[] [] [] [] [] [] [] []]; reflexivity. Qed.



Lemma toLowerCase_idem (s : string) : toLowerCase (toLowerCase s) = toLowerCase s.
Proof. induction s as [|c s IH]; cbn; [done|]. by rewrite lowerChar_idem, IH. Qed.











End LetterCase.

(* ===================================================================== *)
(** * The processing workflow over a whole session                       *)
(* ===================================================================== *)

Section WorkflowSessions.
Import JS ProcessingWorkflow WorkflowView.

Variable api : ElectronAPI.
Variable audioFilePath : string.

(** Idle effects change neither the step nor the transcription, and call
    nothing. *)
Lemma idle_effects (fx : list Effect) (st : State) :
  forallb idleEffect fx = true ->
  steps fx = [] /\ saved fx = [] /\ deleted fx = [] /\ completed fx = []
  /\ failures fx = [] /\ analysed fx = []
  /\ currentStep (run st fx) = currentStep st
  /\ transcriptionResult (run st fx) = transcriptionResult st.
Proof.
  revert st. induction fx as [|e fx IH]; intros st Hidle; [done|].
  cbn [forallb] in Hidle. apply andb_true_iff in Hidle as [He Hfx].
  destruct e as [| | | |[m|]| | | | | | | | | | |]; try discriminate He.
  all: match goal with |- context [run ?s (?e :: _)] =>
         destruct (IH (apply s e) Hfx) as (? & ? & ? & ? & ? & ? & Hstep & Hres)
       end.
  all: by repeat split.
Qed.

Lemma forallb_idle_app (fx1 fx2 : list Effect) :
  forallb idleEffect (fx1 ++ fx2) = true
  <-> forallb idleEffect fx1 = true /\ forallb idleEffect fx2 = true.
Proof. by rewrite forallb_app, andb_true_iff. Qed.

(** The naming dialog is on screen in the naming step only. *)
Lemma react_cases (ui : UI) (a : UserAction) :
  forallb idleEffect (react api audioFilePath ui a) = true
  \/ (currentStep (workflow ui) = StepSpeakerIdentification
      /\ answersNaming a = true
      /\ pipelineRun api audioFilePath (react api audioFilePath ui a)).
Proof.
  unfold react, view, pipelineRun.
  destruct (error (workflow ui)) as [[|c m]|]; cbn [truthy];
    destruct (currentStep (workflow ui)) eqn:Hstep;
    destruct (transcriptionResult (workflow ui)) eqn:Hres;
    destruct a; cbn [isComplete forallb idleEffect andb]; try (by left).
  all: try (destruct (SpeakerIdentification.clickConfirm _ _); [|by left]).
  all: right; split; [done|]; split; [done|];
    unfold handleSpeakersIdentified, handleSkipSpeakerIdentification; by eexists _, _.
Qed.





Lemma session_outside_naming (actions : list UserAction) (ui : UI) :
  currentStep (workflow ui) <> StepSpeakerIdentification ->
  forallb idleEffect (snd (session api audioFilePath ui actions)) = true.
Proof.
  revert ui. induction actions as [|a rest IH]; intros ui Hstep; [done|].
  cbn [session].
  destruct (react_cases ui a) as [Hidle|(? & _)]; [|done].
  assert (Hnext : currentStep (workflow (fst (act api audioFilePath ui a)))
                  <> StepSpeakerIdentification).
  { cbn. by destruct (idle_effects _ (workflow ui) Hidle) as (_ & _ & _ & _ & _ & _ & -> & _). }
  specialize (IH _ Hnext).
  change (snd (act api audioFilePath ui a)) with (react api audioFilePath ui a) in *.
  destruct (act api audioFilePath ui a) as [ui1 fx1] eqn:Hact.
  assert (fx1 = react api audioFilePath ui a) by (by injection Hact). subst fx1.
  cbn [fst] in IH. destruct (session api audioFilePath ui1 rest) as [ui2 fx2].
  cbn [snd] in *. by apply forallb_idle_app.
Qed.



End WorkflowSessions.

Section WorkflowRuns.
Import JS ProcessingWorkflow WorkflowView.

Variable api : ElectronAPI.
Variable audioFilePath : string.

Lemma idle_transcribed (fx : list Effect) :
  forallb idleEffect fx = true -> transcribed fx = [].
Proof.
  induction fx as [|e fx IH]; [done|]. cbn [forallb]. intros [He Hfx]%andb_true_iff.
  destruct e as [| | | |[m|]| | | | | | | | | | |]; try discriminate He; by apply IH.
Qed.




Lemma session_workflow (actions : list UserAction) (ui : UI) :
  workflow (fst (session api audioFilePath ui actions))
  = run (workflow ui) (snd (session api audioFilePath ui actions)).
Proof.
  revert ui. induction actions as [|a rest IH]; intros ui; [done|].
  cbn [session]. specialize (IH (fst (act api audioFilePath ui a))).
  destruct (act api audioFilePath ui a) as [ui1 fx1] eqn:Hact.
  assert (Hui : workflow ui1 = run (workflow ui) fx1) by (by injection Hact as <- <-).
  cbn [fst] in IH. destruct (session api audioFilePath ui1 rest) as [ui2 fx2].
  cbn [fst snd] in *. by rewrite run_app, <- Hui.
Qed.




End WorkflowRuns.

Section WorkflowOrder.
Import JS ProcessingWorkflow WorkflowView.

Variable api : ElectronAPI.
Variable audioFilePath : string.




(** X18.  Outside the naming dialog no control starts anything: whatever
    the user does, nothing is transcribed, analysed or saved, no step is
    set and no failure reported, and the step on screen stays.  After a
    failure Retry only hides the message: the component shows the progress
    view of the step that failed, and nothing runs again. *)
Theorem nothing_restarts_outside_the_naming_dialog (ui : UI) (actions : list UserAction) :
  currentStep (workflow ui) <> StepSpeakerIdentification ->
  let after := session api audioFilePath ui actions in
  (transcribed (snd after) = [] /\ analysed (snd after) = [] /\ saved (snd after) = []
   /\ steps (snd after) = [] /\ failures (snd after) = [])
  /\ currentStep (workflow (fst after)) = currentStep (workflow ui)
  /\ (forall message, error (workflow ui) = Some message -> truthy message = true ->
        view (workflow ui) = ErrorView message
        /\ react api audioFilePath ui ClickRetry = [SetError None]
        /\ view (workflow (fst (act api audioFilePath ui ClickRetry))) = ProgressView).
Proof.
  intros Hstep after. subst after.
  pose proof (session_outside_naming api audioFilePath actions ui Hstep) as Hidle.
  destruct (idle_effects _ (workflow ui) Hidle) as (a1 & a2 & a3 & a4 & a5 & a6 & a7 & _).
  split; [by rewrite (idle_transcribed _ Hidle)|]. split.
  - by rewrite session_workflow.
  - intros message Herr Htruthy.
    assert (Hview : view (workflow ui) = ErrorView message)
      by (unfold view; by rewrite Herr, Htruthy).
    assert (Hreact : react api audioFilePath ui ClickRetry = [SetError None])
      by (unfold react; by rewrite Hview).
    split; [done|]. split; [done|].
    unfold act. rewrite Hreact. cbn. unfold view. cbn.
    by destruct (currentStep (workflow ui)), (transcriptionResult (workflow ui)).
Qed.

(** X19.  What a pipeline run hands on is what it was given: the analysis
    and the saved meeting get the speakers' names as participants, in
    order; the saved meeting keeps the path of the recording exactly when
    cleanup was not requested; and a deletion is asked for, of this
    recording only, exactly when cleanup was requested and the run
    completes. *)
Theorem a_run_hands_on_names_and_path (render : State) (speakers : list Speaker) :
  let fx := startAIAnalysis api audioFilePath render speakers in
  (forall metadata, metadata ∈ analysed fx ->
     meta_participants metadata = List.map sp_name speakers)
  /\ (forall meeting, meeting ∈ saved fx ->
        md_participants meeting = List.map sp_name speakers
        /\ md_audioFilePath meeting
           = (if deleteRecording render then None else Some audioFilePath))
  /\ (deleted fx = [] \/ deleted fx = [audioFilePath])
  /\ (deleted fx = [audioFilePath]
      <-> deleteRecording render = true /\ completed fx <> []).
Proof.
  intros fx. subst fx. unfold startAIAnalysis, saveMeeting.
  destruct (transcriptionResult render) as [result|].
  2: { cbn. split; [by intros ? ?%elem_of_nil|]. split; [by intros ? ?%elem_of_nil|].
       split; [by left|]. split; [done|]. by intros [_ ?]. }
  destruct (analyzeMeeting api _ _) as [analysis|].
  2: { cbn. split; [by intros ? ->%list_elem_of_singleton|].
       split; [by intros ? ?%elem_of_nil|].
       split; [by left|]. split; [done|]. by intros [_ ?]. }
  destruct (databaseSaveMeeting api _) as [savedMeeting|].
  2: { cbn. split; [by intros ? ->%list_elem_of_singleton|].
       split; [by intros ? ->%list_elem_of_singleton|].
       split; [by left|]. split; [done|]. by intros [_ ?]. }
  destruct (deleteRecording render) eqn:Hdel;
    [destruct (deleteAudio api audioFilePath)|]; cbn.
  all: split; [by intros ? ->%list_elem_of_singleton|].
  all: split; [intros ? ->%list_elem_of_singleton; cbn; by rewrite Hdel|].
  - split; [by right|]. done.
  - split; [by right|]. done.
  - split; [by left|]. split; [done|]. by intros [? _].
Qed.

End WorkflowOrder.

Section NamingDialogRuns.
Import JS ProcessingWorkflow WorkflowView SpeakerIdentification Scenario.

(** After a transcription without speakers the analysis fails on the first
    render; Retry, Skip and Confirm then start nothing. *)
Lemma nothing_restarts_witness :
  let ui := fst (mount silentBridge recordingPath) in
  let after := session silentBridge recordingPath ui [ClickRetry; ClickSkip; ClickConfirm] in
  currentStep (workflow ui) = StepAIAnalysis
  /\ analysed (snd after) = [] /\ saved (snd after) = []
  /\ currentStep (workflow (fst after)) = StepAIAnalysis.
Proof.
  assert (Hstep : currentStep (workflow (fst (mount silentBridge recordingPath)))
                  <> StepSpeakerIdentification) by (by vm_compute).
  pose proof (nothing_restarts_outside_the_naming_dialog silentBridge recordingPath
                (fst (mount silentBridge recordingPath))
                [ClickRetry; ClickSkip; ClickConfirm] Hstep) as H.
  cbn zeta in H. destruct H as ((_ & Ha & Hs & _) & Hc & _).
  refine (conj _ (conj Ha (conj Hs _))); [by vm_compute|].
  rewrite Hc. by vm_compute.
Defined.

Lemma generic_names (speakers : list Speaker) (k : nat) :
  List.map sp_name
    (imap (fun index speaker => withName speaker ("Speaker " +:+ showNat (k + index + 1)))
          speakers)
  = List.map (fun i => "Speaker " +:+ showNat i) (seq (k + 1) (length speakers)).
Proof.
  revert k. induction speakers as [|s l IH]; intros k; [done|].
  rewrite imap_cons. cbn [List.map length seq withName sp_name].
  f_equal; [by rewrite Nat.add_0_r|].
  rewrite (imap_ext _ (fun index speaker =>
             withName speaker ("Speaker " +:+ showNat (S k + index + 1)))).
  - by rewrite IH.
  - intros i x _. unfold compose.
    by replace (k + S i + 1)%nat with (S k + i + 1)%nat by lia.
Qed.

Lemma pipeline_participants (api : ElectronAPI) (audioFilePath : string)
    (render : State) (speakers : list Speaker) :
  let fx := startAIAnalysis api audioFilePath render speakers in
  (forall metadata, metadata ∈ analysed fx ->
     meta_participants metadata = List.map sp_name speakers)
  /\ (forall meeting, meeting ∈ saved fx ->
        md_participants meeting = List.map sp_name speakers)
  /\ (is_Some (transcriptionResult render) -> analysed fx <> []).
Proof.
  intros fx. subst fx. unfold startAIAnalysis, saveMeeting.
  destruct (transcriptionResult render) as [result|].
  2: { cbn. split; [by intros ? ?%elem_of_nil|]. split; [by intros ? ?%elem_of_nil|].
       by intros [? ?]. }
  destruct (analyzeMeeting api _ _) as [analysis|].
  2: { cbn. split; [by intros ? ->%list_elem_of_singleton|].
       split; [by intros ? ?%elem_of_nil|]. done. }
  destruct (databaseSaveMeeting api _) as [savedMeeting|].
  2: { cbn. split; [by intros ? ->%list_elem_of_singleton|].
       split; [by intros ? ->%list_elem_of_singleton|]. done. }
  destruct (deleteRecording render); [destruct (deleteAudio api audioFilePath)|]; cbn.
  all: split; [by intros ? ->%list_elem_of_singleton|].
  all: split; [by intros ? ->%list_elem_of_singleton|done].
Qed.

Lemma naming_view (st : State) (speakers : list Speaker) :
  view st = NamingView speakers ->
  currentStep st = StepSpeakerIdentification
  /\ exists result, transcriptionResult st = Some result /\ tr_speakers result = speakers.
Proof.
  unfold view.
  destruct (error st) as [m|]; [destruct (truthy m); [done|]|];
    destruct (currentStep st), (transcriptionResult st) as [result|]; try done;
    intros [= <-]; (split; [done|]); by exists result.
Qed.

(** X20.  Skip from the naming dialog starts the analysis with the speakers
    named by their position, Speaker 1, Speaker 2, ..., whatever names and
    ids the transcription gave them, and these are the participants that
    the analysis and the saved meeting receive. *)
Theorem skip_names_the_speakers_by_position (api : ElectronAPI) (audioFilePath : string)
    (ui : UI) (speakers : list Speaker) :
  view (workflow ui) = NamingView speakers ->
  let fx := react api audioFilePath ui ClickSkip in
  let generic := List.map (fun i => "Speaker " +:+ showNat i) (seq 1 (length speakers)) in
  steps fx <> [] /\ analysed fx <> []
  /\ (forall metadata, metadata ∈ analysed fx -> meta_participants metadata = generic)
  /\ (forall meeting, meeting ∈ saved fx -> md_participants meeting = generic).
Proof.
  intros Hview fx generic. subst fx generic.
  destruct (naming_view _ _ Hview) as (_ & result & Hres & <-).
  unfold react. rewrite Hview. unfold handleSkipSpeakerIdentification. rewrite Hres.
  pose proof (generic_names (tr_speakers result) 0) as Hnames. cbn [Nat.add] in Hnames.
  destruct (pipeline_participants api audioFilePath (workflow ui)
              (imap (fun index speaker =>
                       withName speaker ("Speaker " +:+ showNat (index + 1)))
                    (tr_speakers result))) as (Ha & Hs & Hne).
  rewrite Hnames in Ha, Hs.
  split; [|split; [|split]]; [|apply Hne; by rewrite Hres|exact Ha|exact Hs].
  unfold startAIAnalysis. by cbn.
Qed.

End NamingDialogRuns.

Section NamingDialogGate.
Import JS ProcessingWorkflow WorkflowView SpeakerIdentification Scenario.

(** The one voice of the budget transcript, skipped: the participant is
    Speaker 1. *)
Lemma skip_witness :
  let fx := react (bridge budgetTranscript deletionOk) recordingPath
                  (naming budgetTranscript) ClickSkip in
  analysed fx <> []
  /\ forall meeting, meeting ∈ saved fx -> md_participants meeting = ["Speaker 1"].
Proof.
  pose (speakers := match view (workflow (naming budgetTranscript)) with
                    | NamingView speakers => speakers
                    | _ => []
                    end).
  assert (Hview : view (workflow (naming budgetTranscript)) = NamingView speakers)
    by (by vm_compute).
  pose proof (skip_names_the_speakers_by_position (bridge budgetTranscript deletionOk)
                recordingPath (naming budgetTranscript) speakers Hview) as H.
  cbn zeta in H. destruct H as (_ & Ha & _ & Hs).
  refine (conj Ha _). intros meeting Hin. rewrite (Hs meeting Hin). by vm_compute.
Defined.

Lemma initialNames_blank (speakers : list Speaker) (k v : string) :
  initialNames speakers !! k = Some v -> v = "".
Proof.
  unfold initialNames.
  assert (Hgen : forall m : gmap string string,
            (forall k v, m !! k = Some v -> v = "") ->
            forall k v,
              foldl (fun names speaker => <[sp_id speaker := ""]> names) m speakers !! k
              = Some v -> v = "").
  { induction speakers as [|s l IH]; intros m Hm k' v'; [apply Hm|].
    cbn [foldl]. apply IH. intros k'' v'' [[_ <-]|[_ ?]]%lookup_insert_Some; [done|].
    by eapply Hm. }
  apply Hgen. intros k' v'. by rewrite lookup_empty.
Qed.

Lemma values_lookup (names : gmap string string) (v : string) :
  In v (values names) <-> exists k, names !! k = Some v.
Proof.
  unfold values. rewrite <- list_elem_of_In, list_elem_of_fmap. split.
  - intros ([k v'] & -> & Hin). exists k. by apply elem_of_map_to_list.
  - intros (k & Hk). exists (k, v). split; [done|]. by apply elem_of_map_to_list.
Qed.

Lemma filter_values_NoDup (P : string -> bool) (l : list (string * string)) :
  NoDup (l.*1) ->
  (forall k1 k2 v1 v2, (k1, v1) ∈ l -> (k2, v2) ∈ l ->
     P v1 = true -> P v2 = true -> k1 = k2) ->
  NoDup (List.filter P (l.*2)).
Proof.
  induction l as [|[k v] l IH]; intros Hkeys Hone; [constructor|].
  cbn [fmap list_fmap fst snd List.filter] in *.
  apply NoDup_cons in Hkeys as [Hk Hkeys].
  assert (Hrest : NoDup (List.filter P (l.*2))).
  { apply IH; [done|]. intros k1 k2 v1 v2 H1 H2. apply Hone; by right. }
  destruct (P v) eqn:HP; [|done].
  apply NoDup_cons. split; [|done].
  intros Hin%list_elem_of_In%filter_In. destruct Hin as [Hin _].
  apply list_elem_of_In, list_elem_of_fmap in Hin as ([k' v'] & Heq & Hin).
  cbn in Heq. subst v'.
  assert (k = k') by (apply (Hone k k' v v); [by left|by right|done|done]).
  subst k'. apply Hk, list_elem_of_fmap. by exists (k, v).
Qed.

(** X21.  The naming dialog opens with every field empty and Confirm
    disabled; one name that is not blank, typed into any one field, enables
    it. *)
Theorem confirm_needs_one_name (speakers : list Speaker) (speakerId name : string) :
  confirmEnabled (initialNames speakers) = false
  /\ clickConfirm speakers (initialNames speakers) = None
  /\ (nonBlank name = true ->
      confirmEnabled (handleNameChange speakerId name (initialNames speakers)) = true).
Proof.
  assert (Hoff : hasAtLeastOneName (initialNames speakers) = false).
  { unfold hasAtLeastOneName. apply not_true_is_false.
    intros (v & Hin & Hv)%existsb_exists.
    apply values_lookup in Hin as (k & Hk). by rewrite (initialNames_blank _ _ _ Hk) in Hv. }
  assert (Hdisabled : confirmEnabled (initialNames speakers) = false)
    by (unfold confirmEnabled; by rewrite Hoff).
  split; [done|]. split; [unfold clickConfirm; by rewrite Hdisabled|].
  intros Hname. unfold confirmEnabled, handleNameChange. apply andb_true_iff. split.
  - apply existsb_exists. exists name. split; [|done].
    apply values_lookup. exists speakerId. by rewrite lookup_insert_eq.
  - unfold hasUniquenames. apply Nat.eqb_eq. symmetry. apply size_list_to_set.
    apply filter_values_NoDup; [apply NoDup_fst_map_to_list|].
    assert (Hkey : forall k v, (k, v) ∈ map_to_list (<[speakerId:=name]> (initialNames speakers))
                     -> nonBlank v = true -> k = speakerId).
    { intros k v Hin Hv. apply elem_of_map_to_list, lookup_insert_Some in Hin.
      destruct Hin as [[<- _]|[_ Hk]]; [done|].
      by rewrite (initialNames_blank _ _ _ Hk) in Hv. }
    intros k1 k2 v1 v2 H1 H2 Hv1 Hv2.
    by rewrite (Hkey _ _ H1 Hv1), (Hkey _ _ H2 Hv2).
Qed.

Lemma confirm_needs_one_name_witness :
  confirmEnabled (initialNames (dialogSpeakers (naming moderate))) = false
  /\ confirmEnabled
       (handleNameChange "speaker_2" "Grace"
          (initialNames (dialogSpeakers (naming moderate)))) = true.
Proof.
  pose proof (confirm_needs_one_name (dialogSpeakers (naming moderate))
                "speaker_2" "Grace") as (Hoff & _ & Hon).
  exact (conj Hoff (Hon eq_refl)).
Defined.

(** X22.  The progress display marks exactly the current step active, the
    steps before it in the order of the display complete and the steps
    after it pending: every step has a place in the order, and no two steps
    share one. *)
Theorem step_status_follows_the_display_order (current step : ProcessingStep) :
  (getStepStatus current step = "active" <-> step = current)
  /\ (getStepStatus current step = "complete" <-> before step current)
  /\ (getStepStatus current step = "pending" <-> before current step)
  /\ (In step stepOrder /\ (0 <= indexOf step stepOrder)%Z).
Proof.
  destruct current, step; vm_compute; repeat split; intros; try done; auto 10.
Qed.

End NamingDialogGate.

(* ===================================================================== *)
(** * The file service                                                   *)
(* ===================================================================== *)

Section FileCleanup.
Import JS FileService.

Variable h : FsHost.

Lemma deleteFile_cases (disk : Disk) (filePath : string) :
  ((filePath ∉ disk) /\ deleteFile h disk filePath = (succeeded, disk, []))
  \/ (filePath ∈ disk /\ unlinkError h disk filePath = None
      /\ deleteFile h disk filePath
         = (succeeded, disk ∖ {[filePath]},
            [Unlink filePath; ConsoleLog ("File deleted successfully: " +:+ filePath)]))
  \/ (filePath ∈ disk /\ exists message,
        unlinkError h disk filePath = Some message
        /\ deleteFile h disk filePath
           = (failed message, disk,
              [Unlink filePath;
               ConsoleError ("Failed to delete file " +:+ filePath +:+ ":")])).
Proof.
  unfold deleteFile, existsSync. case_bool_decide as Hin; cbn [negb]; [|by left].
  right. destruct (unlinkError h disk filePath) as [message|]; [right|left]; eauto.
Qed.

(** X23.  [deleteFile] answers for the disk: it never rejects, it reports
    success exactly when the file is not there afterwards (it was missing,
    or it has been unlinked), it removes no other path, and a failure
    leaves the disk as it was and carries the message of the error. *)
Theorem deleteFile_answers_for_the_disk (disk : Disk) (filePath : string) :
  let '(result, after, fx) := deleteFile h disk filePath in
  (ProcessingWorkflow.del_success result = true <-> filePath ∉ after)
  /\ (forall other, other <> filePath -> (other ∈ after <-> other ∈ disk))
  /\ (filePath ∉ disk -> fx = [] /\ after = disk)
  /\ (ProcessingWorkflow.del_success result = false ->
      after = disk
      /\ exists message, unlinkError h disk filePath = Some message
                         /\ ProcessingWorkflow.del_error result = Some message).
Proof.
  destruct (deleteFile_cases disk filePath)
    as [(Hout & ->)|[(Hin & Hok & ->)|(Hin & message & Hfail & ->)]]; cbn.
  - repeat split; try done.
  - split; [|split; [|done]].
    + split; [|done]. intros _ [_ Hnot]%elem_of_difference.
      by apply Hnot, elem_of_singleton.
    + intros other Hother. rewrite elem_of_difference, elem_of_singleton. tauto.
  - split; [done|]. split; [done|]. split; [done|]. intros _. split; [done|].
    by exists message.
Qed.

Lemma deleteSnippets_disk (dir : string) (files : list string) (disk : Disk) :
  (deleteSnippets h disk dir files).1 ⊆ disk
  /\ forall other, other ∉ List.map (join h dir) files ->
       (other ∈ (deleteSnippets h disk dir files).1 <-> other ∈ disk).
Proof.
  revert disk. induction files as [|file rest IH]; intros disk; [done|].
  cbn [deleteSnippets List.map].
  destruct (deleteFile_cases disk (join h dir file))
    as [(Hout & ->)|[(Hin & Hok & ->)|(Hin & message & Hfail & ->)]].
  - specialize (IH disk). destruct (deleteSnippets h disk dir rest) as [d fx].
    cbn [fst] in *. destruct IH as [Hsub Hsame]. split; [done|].
    intros other Hother. apply Hsame. intros ?. apply Hother. by right.
  - specialize (IH (disk ∖ {[join h dir file]})).
    destruct (deleteSnippets h _ dir rest) as [d fx].
    cbn [fst] in *. destruct IH as [Hsub Hsame].
    split; [etrans; [exact Hsub|]; by apply subseteq_difference_l|].
    intros other Hother. rewrite Hsame by (intros ?; apply Hother; by right).
    assert (other <> join h dir file) by (intros ->; apply Hother; by left).
    rewrite elem_of_difference, elem_of_singleton. tauto.
  - specialize (IH disk). destruct (deleteSnippets h disk dir rest) as [d fx].
    cbn [fst] in *. destruct IH as [Hsub Hsame]. split; [done|].
    intros other Hother. apply Hsame. intros ?. apply Hother. by right.
Qed.

(** Every listed snippet that is on the disk is tried, whatever happened
    to the ones before it. *)
Lemma deleteSnippets_tries_all (dir : string) (files : list string) (disk : Disk)
    (snippet : string) :
  snippet ∈ List.map (join h dir) files -> snippet ∈ disk ->
  snippet ∈ unlinked (deleteSnippets h disk dir files).2.
Proof.
  revert disk. induction files as [|file rest IH]; intros disk Hlisted Hon;
    [by apply elem_of_nil in Hlisted|].
  cbn [deleteSnippets List.map] in *.
  destruct (decide (snippet = join h dir file)) as [->|Hne].
  - destruct (deleteFile_cases disk (join h dir file))
      as [(Hout & ->)|[(_ & _ & ->)|(_ & message & _ & ->)]]; [done| |];
      destruct (deleteSnippets h _ dir rest) as [d fx]; cbn; by left.
  - apply elem_of_cons in Hlisted as [?|Hlisted]; [done|].
    destruct (deleteFile_cases disk (join h dir file))
      as [(Hout & ->)|[(_ & _ & ->)|(_ & message & _ & ->)]].
    + specialize (IH disk Hlisted Hon). by destruct (deleteSnippets h disk dir rest).
    + assert (Hstill : snippet ∈ disk ∖ {[join h dir file]})
        by (apply elem_of_difference; split; [done|by rewrite elem_of_singleton]).
      specialize (IH _ Hlisted Hstill).
      destruct (deleteSnippets h _ dir rest) as [d fx]. cbn in *. by right.
    + specialize (IH disk Hlisted Hon).
      destruct (deleteSnippets h disk dir rest) as [d fx]. cbn in *. by right.
Qed.

End FileCleanup.

Section FileCleanupResult.
Import JS FileService.

Variable h : FsHost.

Lemma errorsOf_failed (message : string) :
  failed (joinWith "; " (errorsOf [failed message])) = failed message.
Proof. by destruct message. Qed.

(** The disk after the recording itself has been dealt with. *)
Lemma cleanup_unfold (disk : Disk) (audioFilePath : string) :
  truthy audioFilePath = true ->
  forall result disk1 fx1,
    deleteFile h disk audioFilePath = (result, disk1, fx1) ->
    exists disk2 fx2,
      deleteAudioWithSnippets h disk audioFilePath = (result, disk2, fx1 ++ fx2)
      /\ disk2 ⊆ disk1
      /\ (forall files snippet,
            join h (dirname h audioFilePath) "snippets" ∈ disk1 ->
            readdirSync h disk1 (join h (dirname h audioFilePath) "snippets")
              = Resolved files ->
            snippet ∈ List.map (join h (join h (dirname h audioFilePath) "snippets")) files ->
            snippet ∈ disk1 -> snippet ∈ unlinked fx2).
Proof.
  intros Hpath result disk1 fx1 Hmain.
  unfold deleteAudioWithSnippets. rewrite Hpath, Hmain.
  assert (Hresult : (if existsb (fun r => negb (ProcessingWorkflow.del_success r)) [result]
                     then failed (joinWith "; " (errorsOf [result])) else succeeded)
                    = result).
  { destruct (deleteFile_cases h disk audioFilePath)
      as [(_ & Heq)|[(_ & _ & Heq)|(_ & message & _ & Heq)]];
      rewrite Heq in Hmain; injection Hmain as <- _ _; [done|done|].
    cbn [existsb negb failed ProcessingWorkflow.del_success orb].
    apply errorsOf_failed. }
  rewrite Hresult. set (dir := join h (dirname h audioFilePath) "snippets").
  unfold existsSync. case_bool_decide as Hdir.
  2: { exists disk1, []. split; [done|]. split; [done|]. by intros files snippet ?. }
  destruct (readdirSync h disk1 dir) as [files|message] eqn:Hread.
  2: { eexists disk1, _. split; [done|]. split; [done|]. by intros files snippet _ ?. }
  pose proof (deleteSnippets_disk h dir files disk1) as [Hsub _].
  pose proof (deleteSnippets_tries_all h dir files disk1) as Htries.
  destruct (deleteSnippets h disk1 dir files) as [d fx] eqn:Hloop. cbn [fst snd] in *.
  assert (Hin : forall tail snippet, snippet ∈ unlinked fx ->
                  snippet ∈ unlinked (Readdir dir :: fx ++ tail)).
  { intros tail snippet Hs. unfold unlinked in *. cbn [flat_map app].
    rewrite flat_map_app. apply elem_of_app. by left. }
  destruct (rmdirError h d dir) as [message|].
  - eexists d, _. split; [done|]. split; [done|].
    intros files' snippet _ [= <-] Hlisted Hon. apply Hin. by apply Htries.
  - eexists (d ∖ {[dir]}), _. split; [done|].
    split; [etrans; [|exact Hsub]; by apply subseteq_difference_l|].
    intros files' snippet _ [= <-] Hlisted Hon. apply Hin. by apply Htries.
Qed.

(** X24.  The cleanup answers for the recording alone.  For a path that is
    not empty, [deleteAudioWithSnippets] never rejects and returns what
    [deleteFile] returns for the recording, whatever happens to the
    snippets: a snippet or a directory that cannot be removed is neither
    reported nor does it stop the rest.  Every listed snippet that is on
    the disk is tried, and nothing is ever added to the disk. *)
Theorem cleanup_answers_for_the_recording_alone (disk : Disk) (audioFilePath : string) :
  truthy audioFilePath = true ->
  let main := deleteFile h disk audioFilePath in
  let all := deleteAudioWithSnippets h disk audioFilePath in
  let snippetsDir := join h (dirname h audioFilePath) "snippets" in
  all.1.1 = main.1.1
  /\ all.1.2 ⊆ main.1.2 /\ main.1.2 ⊆ disk
  /\ (forall files snippet,
        snippetsDir ∈ main.1.2 ->
        readdirSync h main.1.2 snippetsDir = Resolved files ->
        snippet ∈ List.map (join h snippetsDir) files ->
        snippet ∈ main.1.2 ->
        snippet ∈ unlinked all.2).
Proof.
  intros Hpath main all snippetsDir. subst main all snippetsDir.
  destruct (deleteFile h disk audioFilePath) as [[result disk1] fx1] eqn:Hmain.
  destruct (cleanup_unfold disk audioFilePath Hpath result disk1 fx1 Hmain)
    as (disk2 & fx2 & -> & Hsub & Htries).
  cbn [fst snd]. split; [done|]. split; [done|]. split.
  - destruct (deleteFile_cases h disk audioFilePath)
      as [(_ & Heq)|[(_ & _ & Heq)|(_ & message & _ & Heq)]];
      rewrite Heq in Hmain; injection Hmain as _ <- _; try done.
    by apply subseteq_difference_l.
  - intros files snippet Hdir Hread Hlisted Hon.
    unfold unlinked. rewrite flat_map_app. apply elem_of_app. right.
    by eapply Htries.
Qed.

End FileCleanupResult.

Section FileBridge.
Import JS ProcessingWorkflow FileScenario.

(** The recording is locked: the cleanup reports the failure of the
    recording, and the snippet is tried all the same. *)
Lemma cleanup_witness :
  (FileService.deleteAudioWithSnippets locked recorded Scenario.recordingPath).1.1
  = FileService.failed "EPERM: operation not permitted"
  /\ firstSnippet
     ∈ FileService.unlinked
         (FileService.deleteAudioWithSnippets locked recorded Scenario.recordingPath).2.
Proof.
  destruct (cleanup_answers_for_the_recording_alone locked recorded
              Scenario.recordingPath eq_refl) as (Hres & _ & _ & Htries).
  split.
  - rewrite Hres. by vm_compute.
  - apply (Htries ["speaker_1_sample.wav"] firstSnippet).
    + apply (bool_decide_unpack _). by vm_compute.
    + reflexivity.
    + by left.
    + apply (bool_decide_unpack _). by vm_compute.
Defined.

Ltac not_among Hin :=
  repeat (apply elem_of_cons in Hin as [Hin|Hin]; [discriminate Hin|]);
  by apply elem_of_nil in Hin.

(** X25.  Behind the bridge the file service never rejects, so the
    workflow never takes its warning branch: whenever it asks for the
    deletion it logs that the audio file was deleted and completes, also
    when the service answered that the recording could not be unlinked. *)
Theorem failed_cleanup_is_logged_as_success (h : FileService.FsHost)
    (disk : FileService.Disk) (api : ElectronAPI) (audioFilePath : string)
    (render : State) (speakers : list Speaker) :
  deleteAudio api = FileService.filesDeleteAudio h disk ->
  let fx := startAIAnalysis api audioFilePath render speakers in
  (ConsoleWarn "Failed to delete audio file:" ∉ fx)
  /\ (deleted fx <> [] ->
      ConsoleLog "Audio file deleted successfully:" ∈ fx
      /\ completed fx <> [] /\ failures fx = [])
  /\ (forall message,
        audioFilePath ∈ disk -> truthy audioFilePath = true ->
        FileService.unlinkError h disk audioFilePath = Some message ->
        deleteAudio api audioFilePath = Resolved (FileService.failed message)).
Proof.
  intros Hwired fx. subst fx. split; [|split].
  - unfold startAIAnalysis, saveMeeting. rewrite Hwired.
    unfold FileService.filesDeleteAudio.
    destruct (transcriptionResult render) as [result|]; [|intros Hin; not_among Hin].
    destruct (analyzeMeeting api _ _) as [analysis|]; [|intros Hin; not_among Hin].
    destruct (databaseSaveMeeting api _) as [savedMeeting|]; [|intros Hin; not_among Hin].
    destruct (deleteRecording render); intros Hin; not_among Hin.
  - unfold startAIAnalysis, saveMeeting. rewrite Hwired.
    unfold FileService.filesDeleteAudio.
    destruct (transcriptionResult render) as [result|]; [|done].
    destruct (analyzeMeeting api _ _) as [analysis|]; [|done].
    destruct (databaseSaveMeeting api _) as [savedMeeting|]; [|done].
    destruct (deleteRecording render); [|done]. intros _. cbn.
    split; [|done]. do 9 right. by left.
  - intros message Hon Hpath Hlocked. rewrite Hwired.
    unfold FileService.filesDeleteAudio. f_equal.
    destruct (FileService.deleteFile h disk audioFilePath) as [[result disk1] fx1] eqn:Hmain.
    destruct (cleanup_unfold h disk audioFilePath Hpath result disk1 fx1 Hmain)
      as (disk2 & fx2 & -> & _). cbn [fst].
    destruct (deleteFile_cases h disk audioFilePath)
      as [(Hout & _)|[(_ & Hok & _)|(_ & message' & Hfail & Heq)]];
      [done|congruence|].
    rewrite Heq in Hmain. injection Hmain as <- _ _. congruence.
Qed.

(** The budget run with the recording locked: Skip completes the run, the
    log says the file was deleted, and the service had answered that it
    could not. *)
Lemma failed_cleanup_witness :
  let fx := startAIAnalysis lockedBridge Scenario.recordingPath
              (workflow (fst (mount lockedBridge Scenario.recordingPath))) [] in
  ConsoleLog "Audio file deleted successfully:" ∈ fx
  /\ (ConsoleWarn "Failed to delete audio file:" ∉ fx)
  /\ deleteAudio lockedBridge Scenario.recordingPath
     = Resolved (FileService.failed "EPERM: operation not permitted").
Proof.
  destruct (failed_cleanup_is_logged_as_success locked recorded lockedBridge
              Scenario.recordingPath
              (workflow (fst (mount lockedBridge Scenario.recordingPath))) [] eq_refl)
    as (Hwarn & Hlog & Hanswer).
  refine (conj (proj1 (Hlog _)) (conj Hwarn (Hanswer _ _ eq_refl eq_refl))).
  - by vm_compute.
  - apply (bool_decide_unpack _). by vm_compute.
Defined.

End FileBridge.

(* ===================================================================== *)
(** * The settings service                                               *)
(* ===================================================================== *)

Section SettingsKeys.
Import JS SettingsService.

Variable h : FsHost.

(** A save writes the settings it was given to the settings file, last,
    or rejects. *)
Lemma saveSettings_cases (s : Service) :
  (exists fx, saveSettings h s = (Resolved tt, fx ++ [WriteFile (settingsPath s) (settings s)]))
  \/ (exists message fx,
        saveSettings h s = (Rejected message, fx ++ [ConsoleError "Failed to save settings:"])).
Proof.
  unfold saveSettings.
  destruct (existsSync h _); cbn [negb];
    [|destruct (mkdirError h _) as [m|]; [right; by eexists m, [_]|]];
    destruct (writeError h _) as [m|].
  - right. by eexists m, [_].
  - left. by exists [].
  - right. by eexists m, [_; _].
  - left. by eexists [_].
Qed.

(** X26.  An API key is a round trip through the service: after
    [setApiKey] the key of that provider is the one given, after
    [clearApiKey] it is absent, and either way the key of the other
    provider and every other setting are as before.  This holds whether
    or not the save succeeds: a save that fails rejects the call and leaves
    the change in memory; a save that succeeds has written the changed
    settings to the settings file. *)
Theorem api_key_round_trip (s : Service) (provider : Provider) (apiKey : string) :
  let '(outcome, s1, fx) := setApiKey h s provider apiKey in
  let '(outcome', s2, fx') := clearApiKey h s1 provider in
  getApiKey s1 provider = Some apiKey
  /\ getApiKey s2 provider = None
  /\ getApiKey s1 (other provider) = getApiKey s (other provider)
  /\ getApiKey s2 (other provider) = getApiKey s (other provider)
  /\ sameButKeys (settings s1) (settings s) /\ sameButKeys (settings s2) (settings s)
  /\ settingsPath s1 = settingsPath s /\ settingsPath s2 = settingsPath s
  /\ (outcome = Resolved tt ->
      exists before, fx = before ++ [WriteFile (settingsPath s) (settings s1)])
  /\ (outcome' = Resolved tt ->
      exists before, fx' = before ++ [WriteFile (settingsPath s) (settings s2)]).
Proof.
  unfold setApiKey, clearApiKey.
  set (s1 := withKeys s (setKey (apiKeys (settings s)) provider (Some apiKey))).
  set (s2 := withKeys s1 (setKey (apiKeys (settings s1)) provider None)).
  split; [by destruct provider|]. split; [by destruct provider|].
  split; [by destruct provider|]. split; [by destruct provider|].
  split; [done|]. split; [done|]. split; [done|]. split; [done|]. split.
  - intros Hok. destruct (saveSettings_cases s1) as [(fx & Heq)|(m & fx & Heq)];
      rewrite Heq in *; [by exists fx|done].
  - intros Hok. destruct (saveSettings_cases s2) as [(fx & Heq)|(m & fx & Heq)];
      rewrite Heq in *; [by exists fx|done].
Qed.

(** X27.  [updateSettings] is a shallow merge: a setting that is present in
    the update replaces the current one and a setting that is absent
    stays.  The keys are one setting: an update that carries keys replaces
    both, so a key it does not mention is lost.  The merged settings are in
    memory whether or not the save succeeds; when it does they are what the
    call returns and what the file holds, and when it does not the call
    rejects with the error of the file system. *)
Theorem updateSettings_is_a_shallow_merge (s : Service) (updates : Updates) :
  let '(outcome, s1, fx) := updateSettings h s updates in
  getSettings s1 = spread (settings s) updates
  /\ (forall keys, u_apiKeys updates = Some keys ->
        forall provider, getApiKey s1 provider = getApiKey (withKeys s keys) provider)
  /\ (u_apiKeys updates = None ->
      forall provider, getApiKey s1 provider = getApiKey s provider)
  /\ (storageLocation (getSettings s1)
      = default (storageLocation (settings s)) (u_storageLocation updates))
  /\ ((exists before,
         outcome = Resolved (getSettings s1)
         /\ fx = before ++ [WriteFile (settingsPath s) (getSettings s1)])
      \/ (exists message before,
            outcome = Rejected message
            /\ fx = before ++ [ConsoleError "Failed to save settings:"])).
Proof.
  unfold updateSettings.
  set (s1 := withSettings s (spread (settings s) updates)).
  destruct (saveSettings_cases s1) as [(fx & Heq)|(m & fx & Heq)]; rewrite Heq.
  - split; [done|]. split; [by intros keys Hk []; cbn; rewrite Hk|].
    split; [by intros Hk []; cbn; rewrite Hk|]. split; [done|]. left. by exists fx.
  - split; [done|]. split; [by intros keys Hk []; cbn; rewrite Hk|].
    split; [by intros Hk []; cbn; rewrite Hk|]. split; [done|]. right. by exists m, fx.
Qed.

(** X28.  [setStorageLocation] creates a missing directory first.  When
    that fails the location is not changed and nothing is written; when the
    directory is there but the save fails the new location stays in memory
    although the call rejects.  Every rejection carries the location and
    the message of the error; a call that resolves has written the new
    location to the settings file. *)
Theorem setStorageLocation_cases (s : Service) (location : string) :
  let '(outcome, s1, fx) := setStorageLocation h s location in
  (forall message,
     existsSync h location = false -> mkdirError h location = Some message ->
     outcome = Rejected ("Cannot set storage location to " +:+ location +:+ ": " +:+ message)
     /\ s1 = s /\ fx = [Mkdir location])
  /\ (existsSync h location = true \/ mkdirError h location = None ->
      getStorageLocation s1 = location
      /\ apiKeys (settings s1) = apiKeys (settings s)
      /\ ((outcome = Resolved tt
           /\ exists before, fx = before ++ [WriteFile (settingsPath s) (settings s1)])
          \/ exists message,
               outcome = Rejected ("Cannot set storage location to " +:+ location
                                   +:+ ": " +:+ message)))
  /\ (existsSync h location = false -> exists rest, fx = Mkdir location :: rest).
Proof.
  unfold setStorageLocation. set (s1 := withLocation s location).
  destruct (existsSync h location) eqn:Hex; cbn [negb].
  - destruct (saveSettings_cases s1) as [(fx & Heq)|(m & fx & Heq)]; rewrite Heq.
    + split; [done|]. split; [|done]. intros _. split; [done|]. split; [done|].
      left. split; [done|]. by exists fx.
    + split; [done|]. split; [|done]. intros _. split; [done|]. split; [done|].
      right. by exists m.
  - destruct (mkdirError h location) as [m'|] eqn:Hmk.
    + split; [by intros message _ [= <-]|]. split; [by intros [?|?]|].
      intros _. by eexists.
    + destruct (saveSettings_cases s1) as [(fx & Heq)|(m & fx & Heq)]; rewrite Heq.
      * split; [done|]. split; [|intros _; by eexists].
        intros _. split; [done|]. split; [done|]. left. split; [done|].
        by exists (Mkdir location :: fx).
      * split; [done|]. split; [|intros _; by eexists].
        intros _. split; [done|]. split; [done|]. right. by exists m.
Qed.

End SettingsKeys.

(* ===================================================================== *)
(** * The recording page                                                 *)
(* ===================================================================== *)

Section DurationOnScreen.
Import JS RecordingPage.

Lemma showNat_digits (n : nat) : allDigits (showNat n) = true.
Proof. unfold showNat. induction (Nat.to_uint n) as [|d IH|d IH|d IH|d IH|d IH|d IH|d IH|d IH|d IH|d IH]; done. Qed.

Lemma showNat_nonempty (n : nat) : showNat n <> "".
Proof.
  unfold showNat. pose proof (Unsigned.to_of (Nat.to_uint n)) as Hnorm.
  rewrite Unsigned.of_to in Hnorm. by destruct (Nat.to_uint n).
Qed.

Lemma padStart2_digits (s : string) : allDigits s = true -> allDigits (padStart2 s) = true.
Proof. unfold padStart2. by destruct s as [|c [|c' s]]. Qed.

Lemma readNat_padStart2 (n : nat) : readNat (padStart2 (showNat n)) = Some n.
Proof.
  assert (Hread : readNat (showNat n) = Some n).
  { unfold readNat, showNat. by rewrite NilEmpty.usu, Unsigned.of_to. }
  pose proof (showNat_nonempty n) as Hne. unfold padStart2.
  destruct (showNat n) as [|c [|c' s]] eqn:Heq; cbn [String.length]; [done| |done].
  revert Hread. unfold readNat.
  change (NilEmpty.uint_of_string ("0" +:+ String c ""))
    with (uint_of_char "0" (NilEmpty.uint_of_string (String c ""))).
  destruct (NilEmpty.uint_of_string (String c "")) as [d|]; [|done].
  intros [= <-]. reflexivity.
Qed.

Lemma splitChar_digits (s : string) :
  allDigits s = true -> splitChar ":" s = [s].
Proof.
  induction s as [|c s IH]; [done|]. cbn [allDigits splitChar].
  intros [Hc Hs]%andb_true_iff. rewrite (IH Hs).
  destruct (Ascii.eqb c ":") eqn:Hcolon; [|done].
  apply Ascii.eqb_eq in Hcolon. by subst c.
Qed.

Lemma splitChar_field (a b : string) :
  allDigits a = true -> splitChar ":" (a +:+ ":" +:+ b) = a :: splitChar ":" b.
Proof.
  induction a as [|c a IH]; [done|]. cbn [allDigits].
  intros [Hc Ha]%andb_true_iff.
  change (String c a +:+ ":" +:+ b) with (String c (a +:+ ":" +:+ b)).
  cbn [splitChar]. rewrite (IH Ha).
  destruct (Ascii.eqb c ":") eqn:Hcolon; [|done].
  apply Ascii.eqb_eq in Hcolon. by subst c.
Qed.

Lemma formatDuration_fields (seconds : nat) :
  splitChar ":" (formatDuration seconds)
  = List.map (fun n => padStart2 (showNat n)) (fields seconds).
Proof.
  unfold formatDuration, fields.
  destruct (0 <? seconds / 3600)%nat; cbn [List.map];
    rewrite ?splitChar_field, splitChar_digits;
    auto using padStart2_digits, showNat_digits.
Qed.

Lemma seconds_of_fields (n : nat) :
  n = (3600 * (n / 3600) + 60 * ((n mod 3600) / 60) + n mod 60)%nat.
Proof.
  pose proof (Nat.div_mod_eq n 3600) as Hh.
  pose proof (Nat.div_mod_eq (n mod 3600) 60) as Hm.
  assert (Hs : ((n mod 3600) mod 60 = n mod 60)%nat).
  { change 3600%nat with (60 * 60)%nat.
    by rewrite Nat.Div0.mod_mul_r, Nat.mul_comm, Nat.Div0.mod_add, Nat.Div0.mod_mod. }
  rewrite Hs in Hm. rewrite Hh at 1. rewrite Hm at 1. lia.
Qed.

Lemma fields_inj (a b : nat) : fields a = fields b -> a = b.
Proof.
  unfold fields.
  pose proof (seconds_of_fields a) as Ha. pose proof (seconds_of_fields b) as Hb.
  revert Ha Hb.
  generalize (a / 3600)%nat ((a mod 3600) / 60)%nat (a mod 60)%nat
             (b / 3600)%nat ((b mod 3600) / 60)%nat (b mod 60)%nat.
  intros ha ma sa hb mb sb Ha Hb.
  destruct (Nat.ltb_spec 0 ha), (Nat.ltb_spec 0 hb); intros [= ? ? ?] || intros [= ? ?];
    lia.
Qed.

(** X29.  The duration on screen determines the duration: two different
    whole numbers of seconds are never shown alike.  Below one hour the
    display is minutes and seconds, five characters wide; from one hour on
    it has a third field in front, the hours.  Each field is the number it
    stands for, written with at least two digits. *)
Theorem the_display_determines_the_duration (a b : nat) :
  (formatDuration a = formatDuration b -> a = b)
  /\ (a < 3600 -> String.length (formatDuration a) = 5)%nat
  /\ (3600 <= a -> 8 <= String.length (formatDuration a))%nat
  /\ List.map readNat (splitChar ":" (formatDuration a)) = List.map Some (fields a)
  /\ (length (fields a) = if (a <? 3600)%nat then 2 else 3)%nat.
Proof.
  assert (Hread : forall n,
            List.map readNat (splitChar ":" (formatDuration n)) = List.map Some (fields n)).
  { intros n. rewrite formatDuration_fields, List.map_map.
    apply List.map_ext. intros k. apply readNat_padStart2. }
  assert (Hwidth : forall k, (2 <= String.length (padStart2 (showNat k)))%nat).
  { intros k. pose proof (showNat_nonempty k). unfold padStart2.
    destruct (showNat k) as [|c [|c' s]]; cbn; [done|exact (le_n 2)|lia]. }
  assert (Htwo : forall k, (k < 60)%nat -> String.length (padStart2 (showNat k)) = 2%nat).
  { intros k Hk. do 60 (destruct k as [|k]; [by vm_compute|]). lia. }
  assert (Hlen : forall x y, String.length (x +:+ y) = (String.length x + String.length y)%nat).
  { intros x y. induction x as [|c x IH]; [done|].
    change (S (String.length (x +:+ y)) = S (String.length x + String.length y)).
    by rewrite IH. }
  split; [|split; [|split; [|split]]].
  - intros Heq. apply fields_inj.
    apply (f_equal (fun s => List.map readNat (splitChar ":" s))) in Heq.
    rewrite !Hread in Heq.
    assert (Hinj : forall l l' : list nat, List.map Some l = List.map Some l' -> l = l').
    { induction l as [|x l IH]; intros [|y l'] [=]; [done|]. f_equal; [done|by apply IH]. }
    by apply Hinj.
  - intros Ha. unfold formatDuration. rewrite (Nat.div_small a 3600 Ha).
    cbn [Nat.ltb Nat.leb]. rewrite !Hlen, !Htwo; [done| |].
    + apply Nat.mod_upper_bound. lia.
    + apply Nat.Div0.div_lt_upper_bound. rewrite Nat.mod_small; lia.
  - intros Ha. unfold formatDuration.
    assert (Hh : (0 <? a / 3600)%nat = true).
    { apply Nat.ltb_lt. apply Nat.div_str_pos. lia. }
    rewrite Hh, !Hlen. cbn [String.length].
    pose proof (Hwidth (a / 3600)%nat). pose proof (Hwidth ((a mod 3600) / 60)%nat).
    pose proof (Hwidth (a mod 60)%nat). lia.
  - apply Hread.
  - unfold fields. destruct (Nat.ltb_spec a 3600) as [Ha|Ha].
    + by rewrite (Nat.div_small a 3600 Ha).
    + assert (Hh : (0 <? a / 3600)%nat = true)
        by (apply Nat.ltb_lt, Nat.div_str_pos; lia).
      by rewrite Hh.
Qed.

End DurationOnScreen.

Section SettingsRestart.
Import JS SettingsService SettingsScenario.

(** X30.  Settings survive a restart.  When the settings file holds what a
    save wrote, the constructor gives back exactly those settings, keys
    included, and writes nothing; when the file is missing or cannot be
    read or parsed the service starts from the defaults, with no key
    stored. *)
Theorem settings_survive_a_restart (h : FsHost) (written : AppSettings) :
  let path := join h (join h (homedir h) "MeetingIntelligence") "settings.json" in
  settingsPath (construct h).1 = path
  /\ (existsSync h path = true -> readSettings h path = Resolved (parsed written) ->
      getSettings (construct h).1 = written /\ (construct h).2 = [])
  /\ (existsSync h path = false \/ (exists message, readSettings h path = Rejected message) ->
      getSettings (construct h).1 = getDefaultSettings h
      /\ getApiKey (construct h).1 OpenAI = None
      /\ getApiKey (construct h).1 Anthropic = None).
Proof.
  intros path. subst path. unfold construct.
  destruct (existsSync h _) eqn:Hex.
  - destruct (readSettings h _) as [loaded|message] eqn:Hread.
    + split; [done|]. split.
      * intros _ [= ->]. split; [|done]. by destruct written.
      * by intros [?|(message & ?)].
    + split; [done|]. split; [done|]. by intros _.
  - split; [done|]. split; [done|]. by intros _.
Qed.

Lemma settings_restart_witness :
  getSettings (construct (home norwegian)).1 = norwegian
  /\ getApiKey (construct (home norwegian)).1 OpenAI = Some "sk-test".
Proof.
  destruct (settings_survive_a_restart (home norwegian) norwegian) as (_ & Hload & _).
  destruct (Hload eq_refl eq_refl) as [Hsettings _].
  split; [exact Hsettings|]. unfold getApiKey. unfold getSettings in Hsettings.
  by rewrite Hsettings.
Defined.

End SettingsRestart.
